(** * dbmcp: the database tool server, its adapters and its connection registry

    A shallow embedding of [database-manager.ts], [schemas.ts] and the tool
    handlers of [index.ts], and the properties of the specification that
    are about them.

    JavaScript objects read by key are finite maps from strings to values;
    [async] functions are computations in a small monad that threads the
    log of driver calls and may throw; [await] is sequencing.  The database
    engines, the clock and the identifier generator are outside the
    program: they are the fields of the [Driver] class, or arguments. *)

From stdpp Require Import gmap strings list.
From Stdlib Require Import QArith.
Local Open Scope string_scope.
Local Open Scope list_scope.
Local Open Scope Z_scope.

(** ** JavaScript values *)

Module Js.

(** A JavaScript number that is not NaN or infinite is taken as a
    rational. *)
Inductive number : Type :=
| Rat (q : Q)
| NaN
| Infinity (negative : bool).

Inductive value : Type :=
| VUndefined
| VNull
| VBool (b : bool)
| VNum (n : number)
| VStr (s : string).

Definition VInt (z : Z) : value := VNum (Rat (inject_Z z)).

(** An object used as a record of fields. *)
Abbreviation object := (gmap string value).

(** [o[k]]: a key the object does not have reads as [undefined]. *)
Definition get (o : object) (k : string) : value :=
  default VUndefined (o !! k).

(** [a ?? b] *)
Definition nullish (a b : value) : value :=
  match a with
  | VUndefined | VNull => b
  | _ => a
  end.

Definition number_truthy (n : number) : bool :=
  match n with
  | Rat q => negb (Z.eqb (Qnum q) 0)
  | NaN => false
  | Infinity _ => true
  end.

Definition truthy (v : value) : bool :=
  match v with
  | VUndefined | VNull => false
  | VBool b => b
  | VNum n => number_truthy n
  | VStr s => negb (String.eqb s "")
  end.

(** [a || b] *)
Definition or (a b : value) : value := if truthy a then a else b.

(** [v === "s"] for a string literal [s]. *)
Definition eq_str (v : value) (s : string) : bool :=
  match v with
  | VStr s' => String.eqb s' s
  | _ => false
  end.

(** [Number.isInteger] *)
Definition isInteger (n : number) : bool :=
  match n with
  | Rat q => Z.eqb (Qnum q mod Z.pos (Qden q)) 0
  | _ => false
  end.

(** [n > 0] *)
Definition positive (n : number) : bool :=
  match n with
  | Rat q => Z.ltb 0 (Qnum q)
  | NaN => false
  | Infinity negative => negb negative
  end.

End Js.
Import Js.

(** ** Effects: the log of what the program asks of the outside, and throwing *)

(** A physical connection, as the driver hands it out. *)
Definition Handle : Type := nat.

Inductive exn : Type :=
| Error (msg : string)
| ErrorTemplate (text : string) (interpolated : value)
| TypeError (msg : string)
| ZodError (paths : list string)
| DriverError (msg : string).

Inductive Event : Type :=
| MysqlCreateConnection (options : object)
| MysqlExecute (h : Handle) (sql : string) (params : list value)
| PgConnect (options : object)
| PgQuery (h : Handle) (sql : string) (params : list value)
| ConnEnd (h : Handle)
| ConsoleError (msg : string) (error : exn).

Inductive result (A : Type) : Type :=
| Ok (a : A)
| Throw (e : exn).
Arguments Ok {A} a.
Arguments Throw {A} e.

Definition Log : Type := list Event.

(** An [async] function over a state [S]: it changes the state and returns
    or throws. *)
Definition M (S A : Type) : Type := S -> result A * S.

Definition ret {S A} (a : A) : M S A := fun s => (Ok a, s).
Definition throw {S A} (e : exn) : M S A := fun s => (Throw e, s).
Definition bind {S A B} (m : M S A) (k : A -> M S B) : M S B :=
  fun s => match m s with
           | (Ok a, s') => k a s'
           | (Throw e, s') => (Throw e, s')
           end.
Definition lift {S A} (r : result A) : M S A := fun s => (r, s).

(** [try { m } catch (error) { h error }] *)
Definition try_catch {S A} (m : M S A) (h : exn -> M S A) : M S A :=
  fun s => match m s with
           | (Ok a, s') => (Ok a, s')
           | (Throw e, s') => h e s'
           end.

Declare Scope js_scope.
Delimit Scope js_scope with js.
Notation "x <- m ;; k" := (bind m (fun x => k))
  (at level 100, m at next level, right associativity) : js_scope.
Notation "m ;;; k" := (bind m (fun _ => k))
  (at level 100, right associativity) : js_scope.
Local Open Scope js_scope.

(** An array walked in order inside an [async] function. *)
Fixpoint mapM {S A B} (f : A -> M S B) (xs : list A) : M S (list B) :=
  match xs with
  | [] => ret []
  | x :: xs' => y <- f x;; ys <- mapM f xs';; ret (y :: ys)
  end.

(** The adapters only touch the log. *)
Abbreviation IO := (M Log).

Definition emit (e : Event) : IO unit := fun l => (Ok tt, l ++ [e]).

(** ** The drivers ([mysql2/promise] and [pg]) *)

(** What [conn.execute] of mysql2 resolves to: [[rows, fields]] for a
    statement with a result set, [[ResultSetHeader, undefined]] for one
    without. *)
Inductive MysqlResult : Type :=
| MyRows (rows : list object) (fields : list string)
| MyHeader.

(** What [client.query] of pg resolves to. *)
Record PgResult : Type := mkPgResult {
  pg_rows : list object;
  pg_fields : list string
}.

(** The engines behind the drivers.  Every field is the answer the engine
    gives to one driver call; a [Throw] is a rejected promise. *)
Class Driver : Type := {
  mysql_createConnection : object -> result Handle;
  mysql_execute : Handle -> string -> list value -> result MysqlResult;
  pg_connect : object -> result Handle;
  pg_query : Handle -> string -> list value -> result PgResult;
  conn_end : Handle -> result unit
}.

(** ** schemas.ts: the shapes *)

Record SqlQuery : Type := mkSqlQuery {
  sql : string;
  params : option (list value)
}.

Record ExplainQuery : Type := mkExplainQuery {
  ex_sql : string;
  ex_params : option (list value);
  analyze : bool
}.

Record ColumnSchema : Type := mkColumn {
  col_name : value;
  col_type : value;
  nullable : value;
  default_value : value;
  primary_key : value
}.

Record ForeignKeySchema : Type := mkForeignKey {
  column : value;
  foreign_table : value;
  foreign_column : value;
  constraint_name : value
}.

Record TableSchema : Type := mkTable {
  table_name : value;
  columns : list ColumnSchema;
  foreign_keys : list ForeignKeySchema
}.

Record DatabaseLayout : Type := mkLayout {
  layout_name : value;
  tables : list TableSchema
}.

(** ** database-manager.ts *)

Record SqlQueryResult : Type := mkSqlQueryResult {
  res_columns : list string;
  res_rows : list (list value)
}.

(** [rows.map((row) => columns.map((col) => row[col] ?? null))] *)
Definition formatRow (cols : list string) (row : object) : list value :=
  map (fun col => nullish (get row col) VNull) cols.

Definition formatRows (cols : list string) (rows : list object) : list (list value) :=
  map (formatRow cols) rows.

(** [params || []] *)
Definition params_or_empty (p : option (list value)) : list value := default [] p.

(** *** The statements the adapters send, as they are in the source *)

Definition mysql_database_sql : string := "SELECT DATABASE() as db_name".

Definition mysql_tables_sql : string :=
  "SELECT TABLE_NAME as table_name FROM information_schema.tables WHERE table_schema = ?".

Definition mysql_columns_sql : string :=
"SELECT 
                        COLUMN_NAME as column_name,
                        DATA_TYPE as data_type,
                        IS_NULLABLE as is_nullable,
                        COLUMN_DEFAULT as column_default,
                        COLUMN_KEY as column_key
                     FROM information_schema.columns 
                     WHERE table_schema = ? AND table_name = ?
                     ORDER BY ordinal_position".

Definition mysql_foreign_keys_sql : string :=
"SELECT 
                        COLUMN_NAME as column_name,
                        REFERENCED_TABLE_NAME as referenced_table_name,
                        REFERENCED_COLUMN_NAME as referenced_column_name,
                        CONSTRAINT_NAME as constraint_name
                     FROM information_schema.key_column_usage 
                     WHERE table_schema = ? AND table_name = ? AND referenced_table_name IS NOT NULL".

Definition pg_database_sql : string := "SELECT current_database() as db_name".

Definition pg_tables_sql : string :=
"SELECT TABLE_NAME 
             FROM information_schema.tables 
             WHERE table_schema = 'public' AND table_type = 'BASE TABLE'".

Definition pg_columns_sql : string :=
"SELECT 
                        c.column_name,
                        c.data_type,
                        c.is_nullable,
                        c.column_default,
                        CASE WHEN pk.column_name IS NOT NULL THEN true ELSE false END as is_primary_key
                     FROM information_schema.columns c
                     LEFT JOIN (
                         SELECT ku.column_name
                         FROM information_schema.table_constraints tc
                         JOIN information_schema.key_column_usage ku
                             ON tc.constraint_name = ku.constraint_name
                             AND tc.table_schema = ku.table_schema
                         WHERE tc.constraint_type = 'PRIMARY KEY'
                             AND tc.table_name = $1
                             AND tc.table_schema = 'public'
                     ) pk ON c.column_name = pk.column_name
                     WHERE c.table_name = $1 AND c.table_schema = 'public'
                     ORDER BY c.ordinal_position".

Definition pg_foreign_keys_sql : string :=
"SELECT 
                        kcu.column_name,
                        ccu.table_name AS foreign_table_name,
                        ccu.column_name AS foreign_column_name,
                        tc.constraint_name
                     FROM information_schema.table_constraints AS tc 
                     JOIN information_schema.key_column_usage AS kcu
                         ON tc.constraint_name = kcu.constraint_name
                         AND tc.table_schema = kcu.table_schema
                     JOIN information_schema.constraint_column_usage AS ccu
                         ON ccu.constraint_name = tc.constraint_name
                         AND ccu.table_schema = tc.table_schema
                     WHERE tc.constraint_type = 'FOREIGN KEY'
                         AND tc.table_name = $1
                         AND tc.table_schema = 'public'".

(** *** Reading the rows of an introspection statement *)

(** [rows[0]?.db_name] *)
Definition first_row_field (rows : list object) (k : string) : value :=
  match rows with
  | [] => VUndefined
  | row :: _ => get row k
  end.

(** The column mapping of the MySQL adapter. *)
Definition mysql_column (col : object) : ColumnSchema :=
  {| col_name := get col "column_name";
     col_type := get col "data_type";
     nullable := VBool (eq_str (get col "is_nullable") "YES");
     default_value := get col "column_default";
     primary_key := VBool (eq_str (get col "column_key") "PRI") |}.

Definition mysql_foreign_key (fk : object) : ForeignKeySchema :=
  {| column := get fk "column_name";
     foreign_table := get fk "referenced_table_name";
     foreign_column := get fk "referenced_column_name";
     constraint_name := get fk "constraint_name" |}.

(** The column mapping of the Postgres adapter. *)
Definition pg_column (col : object) : ColumnSchema :=
  {| col_name := get col "column_name";
     col_type := get col "data_type";
     nullable := VBool (eq_str (get col "is_nullable") "YES");
     default_value := get col "column_default";
     primary_key := get col "is_primary_key" |}.

Definition pg_foreign_key (fk : object) : ForeignKeySchema :=
  {| column := get fk "column_name";
     foreign_table := get fk "foreign_table_name";
     foreign_column := get fk "foreign_column_name";
     constraint_name := get fk "constraint_name" |}.

Definition not_connected : exn := Error "Not connected".

(** *** class MysqlDatabaseManager *)

Module MysqlDatabaseManager.

Record t : Type := mk { config : object; conn : option Handle }.

(** The constructor. *)
Definition new (config : object) : result t :=
  if negb (eq_str (get config "type") "mysql")
  then Throw (Error "Invalid database type")
  else Ok {| config := config; conn := None |}.

Section methods.
Context `{Driver}.

(** [conn.execute(sql, params)]: the call is logged, then answered. *)
Definition conn_execute (h : Handle) (q : string) (ps : list value) : IO MysqlResult :=
  emit (MysqlExecute h q ps);;; lift (mysql_execute h q ps).

(** The array a statement resolved to; [.map] on a [ResultSetHeader] is a
    [TypeError]. *)
Definition rows_of (r : MysqlResult) : IO (list object) :=
  match r with
  | MyRows rows _ => ret rows
  | MyHeader => throw (TypeError "map is not a function")
  end.

Definition connect (this : t) : IO t :=
  let options : object :=
    list_to_map [("host", get (config this) "host");
                 ("port", or (get (config this) "port") (VInt 3306));
                 ("database", get (config this) "database");
                 ("user", get (config this) "username");
                 ("password", get (config this) "password")] in
  emit (MysqlCreateConnection options);;;
  h <- lift (mysql_createConnection options);;
  ret {| config := config this; conn := Some h |}.

(** The callback of [tables.map]; the callbacks handed to [Promise.all]
    are run one table after the other. *)
Definition introspect_table (this : t) (c : Handle) (row : object) : IO TableSchema :=
  let table_name := get row "table_name" in
  columnsResult <- conn_execute c mysql_columns_sql
                     [get (config this) "database"; table_name];;
  columnsRows <- rows_of columnsResult;;
  let columns := map mysql_column columnsRows in
  fkResult <- conn_execute c mysql_foreign_keys_sql
                [get (config this) "database"; table_name];;
  fkRows <- rows_of fkResult;;
  let foreign_keys := map mysql_foreign_key fkRows in
  ret {| table_name := table_name; columns := columns; foreign_keys := foreign_keys |}.

Definition introspect (this : t) : IO DatabaseLayout :=
  match conn this with
  | None => throw not_connected
  | Some c =>
      dbResult <- conn_execute c mysql_database_sql [];;
      let dbName :=
        or (match dbResult with
            | MyRows rows _ => first_row_field rows "db_name"
            | MyHeader => VUndefined
            end)
           (get (config this) "database") in
      tablesResult <- conn_execute c mysql_tables_sql [get (config this) "database"];;
      tables <- rows_of tablesResult;;
      tableSchemas <- mapM (introspect_table this c) tables;;
      ret {| layout_name := dbName; tables := tableSchemas |}
  end.

Definition execute (this : t) (query : SqlQuery) : IO SqlQueryResult :=
  match conn this with
  | None => throw not_connected
  | Some c =>
      r <- conn_execute c (sql query) (params_or_empty (params query));;
      match r with
      | MyRows rows fields =>
          let columns := fields in
          ret {| res_columns := columns; res_rows := formatRows columns rows |}
      | MyHeader => throw (TypeError "Cannot read properties of undefined (reading 'map')")
      end
  end.

Definition disconnect (this : t) : IO t :=
  match conn this with
  | None => ret this
  | Some c =>
      try_catch (emit (ConnEnd c);;; lift (conn_end c))
                (fun error =>
                   emit (ConsoleError "Error disconnecting from MySQL:" error));;;
      ret {| config := config this; conn := None |}
  end.

End methods.
End MysqlDatabaseManager.

(** *** class PostgresqlDatabaseManager *)

Module PostgresqlDatabaseManager.

Record t : Type := mk { config : object; conn : option Handle }.

(** The constructor. *)
Definition new (config : object) : result t :=
  if negb (eq_str (get config "type") "postgres")
  then Throw (Error "Invalid database type")
  else Ok {| config := config; conn := None |}.

Section methods.
Context `{Driver}.

(** [conn.query(sql, params)] *)
Definition conn_query (h : Handle) (q : string) (ps : list value) : IO PgResult :=
  emit (PgQuery h q ps);;; lift (pg_query h q ps).

Definition connect (this : t) : IO t :=
  let options : object :=
    list_to_map [("host", get (config this) "host");
                 ("port", or (get (config this) "port") (VInt 5432));
                 ("database", get (config this) "database");
                 ("user", get (config this) "username");
                 ("password", get (config this) "password")] in
  emit (PgConnect options);;;
  client <- lift (pg_connect options);;
  ret {| config := config this; conn := Some client |}.

(** The callback of [tables.map]: the table's name is read from the key
    [TABLE_NAME] of the row. *)
Definition introspect_table (c : Handle) (row : object) : IO TableSchema :=
  let TABLE_NAME := get row "TABLE_NAME" in
  columnsResult <- conn_query c pg_columns_sql [TABLE_NAME];;
  let columns := map pg_column (pg_rows columnsResult) in
  fkResult <- conn_query c pg_foreign_keys_sql [TABLE_NAME];;
  let foreign_keys := map pg_foreign_key (pg_rows fkResult) in
  ret {| table_name := TABLE_NAME; columns := columns; foreign_keys := foreign_keys |}.

Definition introspect (this : t) : IO DatabaseLayout :=
  match conn this with
  | None => throw not_connected
  | Some c =>
      dbResult <- conn_query c pg_database_sql [];;
      let dbName := or (first_row_field (pg_rows dbResult) "db_name")
                       (get (config this) "database") in
      tablesResult <- conn_query c pg_tables_sql [];;
      let tables := pg_rows tablesResult in
      tableSchemas <- mapM (introspect_table c) tables;;
      ret {| layout_name := dbName; tables := tableSchemas |}
  end.

Definition execute (this : t) (args : SqlQuery) : IO SqlQueryResult :=
  match conn this with
  | None => throw not_connected
  | Some c =>
      r <- conn_query c (sql args) (params_or_empty (params args));;
      let columns := pg_fields r in
      ret {| res_columns := columns; res_rows := formatRows columns (pg_rows r) |}
  end.

Definition disconnect (this : t) : IO t :=
  match conn this with
  | None => ret this
  | Some c =>
      try_catch (emit (ConnEnd c);;; lift (conn_end c))
                (fun error =>
                   emit (ConsoleError "Error disconnecting from MySQL:" error));;;
      ret {| config := config this; conn := None |}
  end.

End methods.
End PostgresqlDatabaseManager.

Inductive AnyDatabaseManager : Type :=
| Mysql (m : MysqlDatabaseManager.t)
| Postgres (p : PostgresqlDatabaseManager.t).

(** The interface both classes implement. *)
Class IDatabaseConnection `{Driver} (T : Type) : Type := {
  connect : T -> IO T;
  disconnect : T -> IO T;
  execute : T -> SqlQuery -> IO SqlQueryResult;
  introspect : T -> IO DatabaseLayout
}.

#[export] Instance MysqlConnection `{Driver} : IDatabaseConnection MysqlDatabaseManager.t := {
  connect := MysqlDatabaseManager.connect;
  disconnect := MysqlDatabaseManager.disconnect;
  execute := MysqlDatabaseManager.execute;
  introspect := MysqlDatabaseManager.introspect
}.

#[export] Instance PostgresqlConnection `{Driver} :
  IDatabaseConnection PostgresqlDatabaseManager.t := {
  connect := PostgresqlDatabaseManager.connect;
  disconnect := PostgresqlDatabaseManager.disconnect;
  execute := PostgresqlDatabaseManager.execute;
  introspect := PostgresqlDatabaseManager.introspect
}.

(** A method called on a value of the union goes to the class of the
    object. *)
#[export] Instance AnyConnection `{Driver} : IDatabaseConnection AnyDatabaseManager := {
  connect m :=
    match m with
    | Mysql a => a' <- connect a;; ret (Mysql a')
    | Postgres a => a' <- connect a;; ret (Postgres a')
    end;
  disconnect m :=
    match m with
    | Mysql a => a' <- disconnect a;; ret (Mysql a')
    | Postgres a => a' <- disconnect a;; ret (Postgres a')
    end;
  execute m q :=
    match m with
    | Mysql a => execute a q
    | Postgres a => execute a q
    end;
  introspect m :=
    match m with
    | Mysql a => introspect a
    | Postgres a => introspect a
    end
}.

Definition any_conn (m : AnyDatabaseManager) : option Handle :=
  match m with
  | Mysql a => MysqlDatabaseManager.conn a
  | Postgres a => PostgresqlDatabaseManager.conn a
  end.

(** ** schemas.ts: the configuration schema *)

(** The combinators of the zod package that [ConnectionConfigSchema] is
    built from.  A schema takes the value found under a key ([undefined]
    when the key is missing) and gives the parsed value, or nothing when
    the value has an issue. *)
Module z.

Definition schema : Type := value -> option value.

(** [z.string()]: any string, the empty one too. *)
Definition string_ : schema :=
  fun v => match v with VStr _ => Some v | _ => None end.

(** [z.number()] *)
Definition number_ : schema :=
  fun v => match v with
           | VNum NaN => None
           | VNum _ => Some v
           | _ => None
           end.

(** [.int()] *)
Definition int (s : schema) : schema :=
  fun v => match s v with
           | Some (VNum n) => if isInteger n then Some (VNum n) else None
           | _ => None
           end.

(** [.positive()] *)
Definition positive (s : schema) : schema :=
  fun v => match s v with
           | Some (VNum n) => if Js.positive n then Some (VNum n) else None
           | _ => None
           end.

(** [z.literal("s")] *)
Definition literal (s : string) : schema :=
  fun v => if eq_str v s then Some v else None.

(** [z.union([...])]: the first option that parses. *)
Fixpoint union (options : list schema) : schema :=
  fun v => match options with
           | [] => None
           | s :: rest => match s v with
                          | Some r => Some r
                          | None => union rest v
                          end
           end.

(** [.default(d)] *)
Definition default_ (s : schema) (d : value) : schema :=
  fun v => match v with
           | VUndefined => Some d
           | _ => s v
           end.

(** [z.object({...}).parse(o)]: every key of the shape is parsed; the keys
    with an issue are reported together in a [ZodError]. *)
Fixpoint object_fields (shape : list (string * schema)) (o : object)
  : list string * object :=
  match shape with
  | [] => ([], ∅)
  | (k, s) :: rest =>
      let '(issues, out) := object_fields rest o in
      match s (get o k) with
      | Some v => (issues, <[k := v]> out)
      | None => (k :: issues, out)
      end
  end.

Definition parse (shape : list (string * schema)) (o : object) : result object :=
  match object_fields shape o with
  | ([], out) => Ok out
  | (issues, _) => Throw (ZodError issues)
  end.

End z.

Definition ConnectionConfigSchema : list (string * z.schema) :=
  [("type", z.union [z.literal "postgres"; z.literal "mysql"]);
   ("host", z.default_ z.string_ (VStr "localhost"));
   ("port", z.positive (z.int z.number_));
   ("database", z.string_);
   ("username", z.string_);
   ("password", z.string_)].

(** ** database-manager.ts: the factory *)

Definition createManagerFromConfig (config : object) : result AnyDatabaseManager :=
  match z.parse ConnectionConfigSchema config with
  | Throw e => Throw e
  | Ok connOptions =>
      if eq_str (get connOptions "type") "mysql" then
        match MysqlDatabaseManager.new connOptions with
        | Ok m => Ok (Mysql m)
        | Throw e => Throw e
        end
      else if eq_str (get connOptions "type") "postgres" then
        match PostgresqlDatabaseManager.new connOptions with
        | Ok p => Ok (Postgres p)
        | Throw e => Throw e
        end
      else Throw (ErrorTemplate "Unsupported database type: " (get connOptions "type"))
  end.

(** ** The connection registry *)

(** Modelled from the spec: the class [LRUCache] of the lru-cache package,
    which [index.ts] constructs and whose code is not part of the
    repository.  The registry is bounded in capacity and in time: [set]
    inserts and evicts the least recently used entry when the registry is
    at capacity; [get] gives the value or nothing, and makes the entry the
    most recently used one; an entry is stale once it is older than the
    time-to-live, counted from its insertion; a stale entry found by [get]
    is removed; every value that leaves the registry is handed to the
    disposal hook.  Entries are kept most recently used first. *)
Module LRUCache.

Section cache.
Context {V : Type}.

Record entry : Type := mkEntry { key : string; val : V; start : Z }.

Record options : Type := mkOptions { max : nat; ttl : Z }.

Variable opts : options.

Definition isStale (now : Z) (e : entry) : bool := ttl opts <? now - start e.

Definition find (k : string) (items : list entry) : option entry :=
  List.find (fun e => String.eqb (key e) k) items.

Definition remove (k : string) (items : list entry) : list entry :=
  List.filter (fun e => negb (String.eqb (key e) k)) items.

(** The entry to evict: the last one. *)
Definition lru (items : list entry) : option entry := last items.

(** [set(k, v)] at time [now]: the new entries and the values to dispose
    of. *)
Definition set (now : Z) (k : string) (v : V) (items : list entry)
  : list entry * list V :=
  let e := {| key := k; val := v; start := now |} in
  match find k items with
  | Some old => (e :: remove k items, [val old])
  | None =>
      if (length items <? max opts)%nat then (e :: items, [])
      else match lru items with
           | Some victim => (e :: removelast items, [val victim])
           | None => (e :: items, [])
           end
  end.

(** [get(k)] at time [now]: the value if there is one, the new entries and
    the values to dispose of. *)
Definition get (now : Z) (k : string) (items : list entry)
  : option V * list entry * list V :=
  match find k items with
  | None => (None, items, [])
  | Some e =>
      if isStale now e then (None, remove k items, [val e])
      else (Some (val e), e :: remove k items, [])
  end.

End cache.
Arguments entry V : clear implicits.
End LRUCache.

(** ** index.ts: the registry of the server and the tool handlers *)

Record Server : Type := mkServer {
  connCache : list (LRUCache.entry AnyDatabaseManager);
  log : Log
}.

Definition connCache_options : LRUCache.options :=
  {| LRUCache.max := 100; LRUCache.ttl := 1000 * 60 * 5 |}.

(** What [explain_query] returns as structured content: the result spread,
    then the two echoes. *)
Record ExplainResult : Type := mkExplainResult {
  explain_columns : list string;
  explain_rows : list (list value);
  originalQuery : string;
  withAnalysis : bool
}.

Definition no_connection (connectionId : string) : exn :=
  Error ("No connection found for ID: " +:+ connectionId).

(** The [EXPLAIN] statement built by [explain_query]. *)
Definition explainQuery (query : ExplainQuery) : string :=
  if analyze query then "EXPLAIN ANALYZE " +:+ ex_sql query
  else "EXPLAIN " +:+ ex_sql query.

Section server.
Context `{Driver}.

(** An adapter method run by a handler: it works on the log of the server. *)
Definition zoom {A} (m : IO A) : M Server A :=
  fun s => let '(r, l) := m (log s) in
           (r, {| connCache := connCache s; log := l |}).

(** The [dispose] option of the registry:
    [value.disconnect().catch((error) => console.error(...))].  The promise
    it starts is followed to its end at the point where the registry calls
    the hook. *)
Definition dispose (value : AnyDatabaseManager) : IO unit :=
  try_catch (disconnect value;;; ret tt)
            (fun error => emit (ConsoleError "Error disconnecting from database:" error)).

Definition dispose_all (values : list AnyDatabaseManager) : IO unit :=
  mapM dispose values;;; ret tt.

(** [connCache.set(k, v)] at time [now]. *)
Definition connCache_set (now : Z) (k : string) (v : AnyDatabaseManager) : M Server unit :=
  fun s =>
    let '(items, disposed) := LRUCache.set connCache_options now k v (connCache s) in
    let '(r, l) := dispose_all disposed (log s) in
    (r, {| connCache := items; log := l |}).

(** [connCache.get(k)] at time [now]. *)
Definition connCache_get (now : Z) (k : string) : M Server (option AnyDatabaseManager) :=
  fun s =>
    let '(found, items, disposed) := LRUCache.get connCache_options now k (connCache s) in
    let '(r, l) := dispose_all disposed (log s) in
    (match r with Ok _ => Ok found | Throw e => Throw e end,
     {| connCache := items; log := l |}).

(** The handler of the tool [connect]; [connectionId] is what [uuidv4()]
    gives, [now] the time of [connCache.set].  The handlers are given by
    their structured content. *)
Definition connect_tool (now : Z) (connectionId : string) (config : object)
  : M Server string :=
  dbManager <- lift (createManagerFromConfig config);;
  dbManager <- zoom (connect dbManager);;
  connCache_set now connectionId dbManager;;;
  ret connectionId.

Definition inspect_database (now : Z) (connectionId : string) : M Server DatabaseLayout :=
  found <- connCache_get now connectionId;;
  match found with
  | None => throw (no_connection connectionId)
  | Some dbManager => zoom (introspect dbManager)
  end.

Definition execute_query (now : Z) (connectionId : string) (query : SqlQuery)
  : M Server SqlQueryResult :=
  found <- connCache_get now connectionId;;
  match found with
  | None => throw (no_connection connectionId)
  | Some dbManager => zoom (execute dbManager query)
  end.

Definition explain_query (now : Z) (connectionId : string) (query : ExplainQuery)
  : M Server ExplainResult :=
  found <- connCache_get now connectionId;;
  match found with
  | None => throw (no_connection connectionId)
  | Some dbManager =>
      result <- zoom (execute dbManager
                        {| sql := explainQuery query; params := ex_params query |});;
      ret {| explain_columns := res_columns result;
             explain_rows := res_rows result;
             originalQuery := ex_sql query;
             withAnalysis := analyze query |}
  end.

End server.

(** ** The engines' side of introspection *)

(** The engines answer the introspection statements from the views of
    their information schema.  The views are given as lists of rows; the
    answer to a statement of the adapters is its selection, join and
    projection over them.  The keys of an answer's rows are the names of
    its result columns: the alias where the statement gives one, the name
    of the column otherwise, which PostgreSQL folds to lower case when it
    is written without quotes. *)
Module InformationSchema.

Record tables_row : Type := mkTables {
  t_schema : string; t_name : string; t_type : string
}.

Record columns_row : Type := mkColumns {
  c_schema : string; c_table : string; c_name : string;
  ordinal_position : nat; data_type : string; is_nullable : string;
  column_default : option string;
  column_key : string                     (* MySQL only *)
}.

Record table_constraints_row : Type := mkTableConstraints {
  tc_name : string; tc_schema : string; tc_table : string; constraint_type : string
}.

Record key_column_usage_row : Type := mkKeyColumnUsage {
  kcu_constraint : string; kcu_schema : string; kcu_table : string;
  kcu_column : string;
  referenced_table_name : option string;  (* MySQL only *)
  referenced_column_name : option string  (* MySQL only *)
}.

Record constraint_column_usage_row : Type := mkConstraintColumnUsage {
  ccu_constraint : string; ccu_schema : string; ccu_table : string;
  ccu_column : string
}.

Record catalog : Type := mkCatalog {
  database : string;
  tables_view : list tables_row;
  columns_view : list columns_row;
  table_constraints : list table_constraints_row;
  key_column_usage : list key_column_usage_row;
  constraint_column_usage : list constraint_column_usage_row
}.

(** [column = ?] for a bound parameter: never true of [NULL], which is
    what the drivers send for [null] and [undefined]. *)
Definition sql_eq (s : string) (p : value) : bool :=
  match p with
  | VStr x => String.eqb s x
  | _ => false
  end.

Definition nullable_str (o : option string) : value :=
  match o with
  | Some s => VStr s
  | None => VNull
  end.

(** [ORDER BY ordinal_position] *)
Fixpoint insert_by_ordinal (c : columns_row) (rows : list columns_row) : list columns_row :=
  match rows with
  | [] => [c]
  | r :: rest =>
      if (ordinal_position c <=? ordinal_position r)%nat then c :: rows
      else r :: insert_by_ordinal c rest
  end.

Definition by_ordinal (rows : list columns_row) : list columns_row :=
  foldr insert_by_ordinal [] rows.

Definition row (fields : list (string * value)) : object := list_to_map fields.

Section engines.
Variable cat : catalog.

(** *** MySQL *)

Definition mysql_tables (schema : value) : list object :=
  map (fun t => row [("table_name", VStr (t_name t))])
      (filter (fun t => sql_eq (t_schema t) schema = true) (tables_view cat)).

Definition mysql_columns (schema table : value) : list object :=
  map (fun c => row [("column_name", VStr (c_name c));
                     ("data_type", VStr (data_type c));
                     ("is_nullable", VStr (is_nullable c));
                     ("column_default", nullable_str (column_default c));
                     ("column_key", VStr (column_key c))])
      (by_ordinal
         (filter (fun c => sql_eq (c_schema c) schema && sql_eq (c_table c) table = true)
                 (columns_view cat))).

Definition mysql_foreign_keys (schema table : value) : list object :=
  map (fun k => row [("column_name", VStr (kcu_column k));
                     ("referenced_table_name", nullable_str (referenced_table_name k));
                     ("referenced_column_name", nullable_str (referenced_column_name k));
                     ("constraint_name", VStr (kcu_constraint k))])
      (filter (fun k => sql_eq (kcu_schema k) schema && sql_eq (kcu_table k) table
                        && bool_decide (is_Some (referenced_table_name k)) = true)
              (key_column_usage cat)).

Definition unknown_statement {A} : result A :=
  Throw (DriverError "statement outside the introspection statements").

Definition mysql_engine (h : Handle) (q : string) (ps : list value) : result MysqlResult :=
  if String.eqb q mysql_database_sql then
    Ok (MyRows [row [("db_name", VStr (database cat))]] ["db_name"])
  else if String.eqb q mysql_tables_sql then
    match ps with
    | [schema] => Ok (MyRows (mysql_tables schema) ["table_name"])
    | _ => unknown_statement
    end
  else if String.eqb q mysql_columns_sql then
    match ps with
    | [schema; table] =>
        Ok (MyRows (mysql_columns schema table)
                   ["column_name"; "data_type"; "is_nullable"; "column_default"; "column_key"])
    | _ => unknown_statement
    end
  else if String.eqb q mysql_foreign_keys_sql then
    match ps with
    | [schema; table] =>
        Ok (MyRows (mysql_foreign_keys schema table)
                   ["column_name"; "referenced_table_name"; "referenced_column_name";
                    "constraint_name"])
    | _ => unknown_statement
    end
  else unknown_statement.

(** *** PostgreSQL *)

(** [SELECT TABLE_NAME FROM information_schema.tables ...]: the result
    column is [table_name]. *)
Definition pg_tables : list object :=
  map (fun t => row [("table_name", VStr (t_name t))])
      (filter (fun t => String.eqb (t_schema t) "public"
                        && String.eqb (t_type t) "BASE TABLE" = true)
              (tables_view cat)).

(** The subquery [pk]: the columns of the primary key constraints of the
    table. *)
Definition pg_primary_key_columns (table : value) : list string :=
  tc ← filter (fun tc => String.eqb (constraint_type tc) "PRIMARY KEY"
                         && sql_eq (tc_table tc) table
                         && String.eqb (tc_schema tc) "public" = true)
              (table_constraints cat);
  ku ← filter (fun ku => String.eqb (tc_name tc) (kcu_constraint ku)
                         && String.eqb (tc_schema tc) (kcu_schema ku) = true)
              (key_column_usage cat);
  [kcu_column ku].

Definition pg_column_row (c : columns_row) (is_primary_key : bool) : object :=
  row [("column_name", VStr (c_name c));
       ("data_type", VStr (data_type c));
       ("is_nullable", VStr (is_nullable c));
       ("column_default", nullable_str (column_default c));
       ("is_primary_key", VBool is_primary_key)].

(** [columns c LEFT JOIN pk ON c.column_name = pk.column_name] *)
Definition pg_columns (table : value) : list object :=
  c ← by_ordinal
         (filter (fun c => sql_eq (c_table c) table && String.eqb (c_schema c) "public" = true)
                 (columns_view cat));
  match filter (fun p => String.eqb (c_name c) p = true) (pg_primary_key_columns table) with
  | [] => [pg_column_row c false]
  | matches => map (fun _ => pg_column_row c true) matches
  end.

Definition pg_foreign_keys (table : value) : list object :=
  tc ← filter (fun tc => String.eqb (constraint_type tc) "FOREIGN KEY"
                         && sql_eq (tc_table tc) table
                         && String.eqb (tc_schema tc) "public" = true)
              (table_constraints cat);
  kcu ← filter (fun kcu => String.eqb (tc_name tc) (kcu_constraint kcu)
                           && String.eqb (tc_schema tc) (kcu_schema kcu) = true)
               (key_column_usage cat);
  ccu ← filter (fun ccu => String.eqb (ccu_constraint ccu) (tc_name tc)
                           && String.eqb (ccu_schema ccu) (tc_schema tc) = true)
               (constraint_column_usage cat);
  [row [("column_name", VStr (kcu_column kcu));
        ("foreign_table_name", VStr (ccu_table ccu));
        ("foreign_column_name", VStr (ccu_column ccu));
        ("constraint_name", VStr (tc_name tc))]].

Definition pg_engine (h : Handle) (q : string) (ps : list value) : result PgResult :=
  if String.eqb q pg_database_sql then
    Ok {| pg_rows := [row [("db_name", VStr (database cat))]]; pg_fields := ["db_name"] |}
  else if String.eqb q pg_tables_sql then
    Ok {| pg_rows := pg_tables; pg_fields := ["table_name"] |}
  else if String.eqb q pg_columns_sql then
    match ps with
    | [table] =>
        Ok {| pg_rows := pg_columns table;
              pg_fields := ["column_name"; "data_type"; "is_nullable"; "column_default";
                            "is_primary_key"] |}
    | _ => unknown_statement
    end
  else if String.eqb q pg_foreign_keys_sql then
    match ps with
    | [table] =>
        Ok {| pg_rows := pg_foreign_keys table;
              pg_fields := ["column_name"; "foreign_table_name"; "foreign_column_name";
                            "constraint_name"] |}
    | _ => unknown_statement
    end
  else unknown_statement.

(** An engine of each kind holding the catalog. *)
Definition engine : Driver :=
  {| mysql_createConnection := fun _ => Ok 1%nat;
     mysql_execute := mysql_engine;
     pg_connect := fun _ => Ok 1%nat;
     pg_query := pg_engine;
     conn_end := fun _ => Ok tt |}.

End engines.

(** *** The scenario: [orders(id PK, customer_id FK -> customers.id)] *)

(** The views of a MySQL database [shop] after
    [CREATE TABLE customers (id INT PRIMARY KEY)] and
    [CREATE TABLE orders (id INT PRIMARY KEY, customer_id INT,
     FOREIGN KEY (customer_id) REFERENCES customers(id))]. *)
Definition mysql_shop : catalog :=
  {| database := "shop";
     tables_view := [mkTables "shop" "customers" "BASE TABLE";
                     mkTables "shop" "orders" "BASE TABLE"];
     columns_view :=
       [mkColumns "shop" "customers" "id" 1 "int" "NO" None "PRI";
        mkColumns "shop" "orders" "id" 1 "int" "NO" None "PRI";
        mkColumns "shop" "orders" "customer_id" 2 "int" "YES" None "MUL"];
     table_constraints :=
       [mkTableConstraints "PRIMARY" "shop" "customers" "PRIMARY KEY";
        mkTableConstraints "PRIMARY" "shop" "orders" "PRIMARY KEY";
        mkTableConstraints "orders_ibfk_1" "shop" "orders" "FOREIGN KEY"];
     key_column_usage :=
       [mkKeyColumnUsage "PRIMARY" "shop" "customers" "id" None None;
        mkKeyColumnUsage "PRIMARY" "shop" "orders" "id" None None;
        mkKeyColumnUsage "orders_ibfk_1" "shop" "orders" "customer_id"
                         (Some "customers") (Some "id")];
     constraint_column_usage := [] |}.

(** The views of a PostgreSQL database [shop] after the same statements,
    in the schema [public]. *)
Definition pg_shop : catalog :=
  {| database := "shop";
     tables_view := [mkTables "public" "customers" "BASE TABLE";
                     mkTables "public" "orders" "BASE TABLE"];
     columns_view :=
       [mkColumns "public" "customers" "id" 1 "integer" "NO" None "";
        mkColumns "public" "orders" "id" 1 "integer" "NO" None "";
        mkColumns "public" "orders" "customer_id" 2 "integer" "YES" None ""];
     table_constraints :=
       [mkTableConstraints "customers_pkey" "public" "customers" "PRIMARY KEY";
        mkTableConstraints "orders_pkey" "public" "orders" "PRIMARY KEY";
        mkTableConstraints "orders_customer_id_fkey" "public" "orders" "FOREIGN KEY"];
     key_column_usage :=
       [mkKeyColumnUsage "customers_pkey" "public" "customers" "id" None None;
        mkKeyColumnUsage "orders_pkey" "public" "orders" "id" None None;
        mkKeyColumnUsage "orders_customer_id_fkey" "public" "orders" "customer_id"
                         None None];
     constraint_column_usage :=
       [mkConstraintColumnUsage "customers_pkey" "public" "customers" "id";
        mkConstraintColumnUsage "orders_pkey" "public" "orders" "id";
        mkConstraintColumnUsage "orders_customer_id_fkey" "public" "customers" "id"] |}.

(** The declared table, as both adapters are to describe it. *)
Definition orders_schema (type : string) (fk_name : string) : TableSchema :=
  {| table_name := VStr "orders";
     columns := [ {| col_name := VStr "id"; col_type := VStr type;
                     nullable := VBool false; default_value := VNull;
                     primary_key := VBool true |};
                  {| col_name := VStr "customer_id"; col_type := VStr type;
                     nullable := VBool true; default_value := VNull;
                     primary_key := VBool false |} ];
     foreign_keys := [ {| column := VStr "customer_id";
                          foreign_table := VStr "customers";
                          foreign_column := VStr "id";
                          constraint_name := VStr fk_name |} ] |}.

(** A parsed configuration for the database [shop]. *)
Definition shop_config (type : string) (port : Z) : object :=
  row [("type", VStr type); ("host", VStr "localhost"); ("port", VInt port);
       ("database", VStr "shop"); ("username", VStr "dbmcp");
       ("password", VStr "password123")].

End InformationSchema.

(** * The vocabulary of the properties *)

(** ** Results, logs and sessions *)

(** The cell under a column is the field of that name, [null] when the
    row has no such field. *)
Definition cell_of (row : object) (col : string) : value :=
  match row !! col with
  | Some v => nullish v VNull
  | None => VNull
  end.

(** A result row is aligned with the columns when it has one cell per
    column, the cell of the field named by that column. *)
Definition aligned (cols : list string) (row : object) (cells : list value) : Prop :=
  length cells = length cols /\
  forall i col, cols !! i = Some col -> cells !! i = Some (cell_of row col).

(** The rows and fields the driver answered a query of the adapter with. *)
Definition answered `{Driver} (m : AnyDatabaseManager) (q : SqlQuery)
    (rows : list object) (fields : list string) : Prop :=
  match m with
  | Mysql a =>
      exists h, MysqlDatabaseManager.conn a = Some h /\
        mysql_execute h (sql q) (params_or_empty (params q)) = Ok (MyRows rows fields)
  | Postgres b =>
      exists h, PostgresqlDatabaseManager.conn b = Some h /\
        pg_query h (sql q) (params_or_empty (params q))
        = Ok {| pg_rows := rows; pg_fields := fields |}
  end.

(** What closing the handle [h] adds to the log: the call of [end], and
    the report of its failure if it fails. *)
Definition close_events `{Driver} (h : Handle) : Log :=
  ConnEnd h ::
  match conn_end h with
  | Ok _ => []
  | Throw e => [ConsoleError "Error disconnecting from MySQL:" e]
  end.

(** The handles that [end] was called on, in a log. *)
Definition closes (l : Log) : list Handle :=
  omap (fun e => match e with ConnEnd h => Some h | _ => None end) l.

Definition disconnect_events `{Driver} (m : AnyDatabaseManager) : Log :=
  match any_conn m with
  | None => []
  | Some h => close_events h
  end.

(** The adapter with its handle cleared. *)
Definition disconnected (m : AnyDatabaseManager) : AnyDatabaseManager :=
  match m with
  | Mysql a =>
      Mysql {| MysqlDatabaseManager.config := MysqlDatabaseManager.config a;
               MysqlDatabaseManager.conn := None |}
  | Postgres b =>
      Postgres {| PostgresqlDatabaseManager.config := PostgresqlDatabaseManager.config b;
                  PostgresqlDatabaseManager.conn := None |}
  end.

(** The session [id] is live at time [now]: the registry has an entry for
    it that is not stale. *)
Definition live (now : Z) (id : string) (s : Server)
    (e : LRUCache.entry AnyDatabaseManager) : Prop :=
  LRUCache.find id (connCache s) = Some e /\
  LRUCache.isStale connCache_options now e = false.

(** The registry after a lookup of the live entry [e]. *)
Definition touched (id : string) (s : Server) (e : LRUCache.entry AnyDatabaseManager)
  : list (LRUCache.entry AnyDatabaseManager) :=
  e :: LRUCache.remove id (connCache s).

(** The call an adapter makes on its driver for a statement. *)
Definition driver_call (m : AnyDatabaseManager) (h : Handle) (q : string)
    (ps : list value) : Event :=
  match m with
  | Mysql _ => MysqlExecute h q ps
  | Postgres _ => PgQuery h q ps
  end.

(** What [explain_query] makes of the outcome of [execute]. *)
Definition explained (query : ExplainQuery) (r : result SqlQueryResult)
  : result ExplainResult :=
  match r with
  | Ok res => Ok {| explain_columns := res_columns res;
                    explain_rows := res_rows res;
                    originalQuery := ex_sql query;
                    withAnalysis := analyze query |}
  | Throw e => Throw e
  end.

(** What disposing of the values, in order, adds to the log. *)
Definition disposal_events `{Driver} (values : list AnyDatabaseManager) : Log :=
  concat (map disconnect_events values).

(** ** Requests *)

(** A call of a tool, with the time at which it reaches the registry. *)
Inductive request : Type :=
| Connect (now : Z) (connectionId : string) (config : object)
| InspectDatabase (now : Z) (connectionId : string)
| ExecuteQuery (now : Z) (connectionId : string) (query : SqlQuery)
| ExplainQuery_ (now : Z) (connectionId : string) (query : ExplainQuery).

(** The server after a request, whether its handler returned or threw. *)
Definition serve `{Driver} (s : Server) (r : request) : Server :=
  match r with
  | Connect now id config => snd (connect_tool now id config s)
  | InspectDatabase now id => snd (inspect_database now id s)
  | ExecuteQuery now id q => snd (execute_query now id q s)
  | ExplainQuery_ now id q => snd (explain_query now id q s)
  end.

Definition start : Server := {| connCache := []; log := [] |}.

Definition serve_all `{Driver} (requests : list request) : Server :=
  fold_left serve requests start.

Definition bounded (s : Server) : Prop := (length (connCache s) <= 100)%nat.

(** ** The use of the sessions *)

(** The identifier a request uses in the registry of the server it
    reaches: the one a [connect] registers, when it gets that far, and the one
    a lookup finds an adapter for. *)
Definition use `{Driver} (s : Server) (r : request) : option string :=
  match r with
  | Connect now id config =>
      match fst (connect_tool now id config s) with
      | Ok _ => Some id
      | Throw _ => None
      end
  | InspectDatabase now id | ExecuteQuery now id _ | ExplainQuery_ now id _ =>
      match fst (connCache_get now id s) with
      | Ok (Some _) => Some id
      | _ => None
      end
  end.

(** The server after a request, and the uses so far, the latest first. *)
Definition track `{Driver} (sh : Server * list (option string)) (r : request)
  : Server * list (option string) :=
  (serve (fst sh) r, use (fst sh) r :: snd sh).

(** The uses of the requests the server has handled, the latest first. *)
Definition history `{Driver} (requests : list request) : list (option string) :=
  snd (fold_left track requests (start, [])).

(** The number of requests handled since the identifier was last used. *)
Fixpoint idle (h : list (option string)) (k : string) : nat :=
  match h with
  | [] => 0
  | u :: h' =>
      match u with
      | Some k' => if String.eqb k' k then 0 else S (idle h' k)
      | None => S (idle h' k)
      end
  end.

(** Entries in the order of their last use, the latest first: every entry
    was used later than the entries after it. *)
Fixpoint recent {V} (h : list (option string)) (items : list (LRUCache.entry V)) : Prop :=
  match items with
  | [] => True
  | a :: rest =>
      Forall (fun b => (idle h (LRUCache.key a) < idle h (LRUCache.key b))%nat) rest /\
      recent h rest
  end.

(** The entries are in the order of their last use, and each has been
    used. *)
Definition tracked {V} (h : list (option string)) (items : list (LRUCache.entry V)) : Prop :=
  recent h items /\ Forall (fun e => In (Some (LRUCache.key e)) h) items.

(** ** Checks on a configuration *)

Definition is_string (v : value) : bool :=
  match v with VStr _ => true | _ => false end.

Definition known_type (v : value) : bool := eq_str v "postgres" || eq_str v "mysql".

(** The host may be left out. *)
Definition host_ok (v : value) : bool :=
  match v with VUndefined => true | _ => is_string v end.

Definition positive_integer (v : value) : bool :=
  match v with
  | VNum n => isInteger n && Js.positive n
  | _ => false
  end.

(** The keys of a configuration that have an issue, in the order of the
    schema. *)
Definition issues_of (config : object) : list string :=
  (if known_type (get config "type") then [] else ["type"]) ++
  (if host_ok (get config "host") then [] else ["host"]) ++
  (if positive_integer (get config "port") then [] else ["port"]) ++
  (if is_string (get config "database") then [] else ["database"]) ++
  (if is_string (get config "username") then [] else ["username"]) ++
  (if is_string (get config "password") then [] else ["password"]).

(** The structural checks of the schema: a known engine, a host that is a
    string if there is one, a port that is a positive integer, and strings,
    empty or not, for the database, the user and the password. *)
Definition well_formed (config : object) : bool :=
  known_type (get config "type") && host_ok (get config "host")
  && positive_integer (get config "port") && is_string (get config "database")
  && is_string (get config "username") && is_string (get config "password").

Definition host_default (v : value) : value :=
  match v with VUndefined => VStr "localhost" | _ => v end.

(** The configuration as parsed: the host defaulted. *)
Definition parsed (config : object) : object :=
  <["type" := get config "type"]>
  (<["host" := host_default (get config "host")]>
  (<["port" := get config "port"]>
  (<["database" := get config "database"]>
  (<["username" := get config "username"]>
  (<["password" := get config "password"]> ∅))))).

(** The factory on a configuration that passes the schema. *)
Definition constructed (config : object) : AnyDatabaseManager :=
  if eq_str (get config "type") "mysql"
  then Mysql {| MysqlDatabaseManager.config := parsed config;
                MysqlDatabaseManager.conn := None |}
  else Postgres {| PostgresqlDatabaseManager.config := parsed config;
                   PostgresqlDatabaseManager.conn := None |}.

(** The keys without a default. *)
Definition required : list string := ["type"; "port"; "database"; "username"; "password"].

(** ** Sample configurations, adapters and servers *)

(** A MySQL configuration whose database, user and password are empty
    strings. *)
Definition blank_config : object :=
  list_to_map [("type", VStr "mysql"); ("host", VStr "localhost"); ("port", VInt 3306);
               ("database", VStr ""); ("username", VStr ""); ("password", VStr "")].

(** The two adapters, connected to the database of the scenario. *)
Definition mysql_shop_adapter : MysqlDatabaseManager.t :=
  {| MysqlDatabaseManager.config := InformationSchema.shop_config "mysql" 3306;
     MysqlDatabaseManager.conn := Some 1%nat |}.

Definition pg_shop_adapter : PostgresqlDatabaseManager.t :=
  {| PostgresqlDatabaseManager.config := InformationSchema.shop_config "postgres" 5432;
     PostgresqlDatabaseManager.conn := Some 1%nat |}.

(** A table described without a name, columns or foreign keys. *)
Definition nameless_table : TableSchema :=
  {| table_name := VUndefined; columns := []; foreign_keys := [] |}.

(** A driver whose engines answer every statement with the same two rows,
    the second without the field [name], and on which closing the handle 1
    fails. *)
Definition sample_rows : list object :=
  [list_to_map [("id", VInt 1); ("name", VNull)]; list_to_map [("id", VInt 2)]].

Definition sample_driver : Driver :=
  {| mysql_createConnection := fun _ => Ok 1%nat;
     mysql_execute := fun _ _ _ => Ok (MyRows sample_rows ["id"; "name"]);
     pg_connect := fun _ => Ok 2%nat;
     pg_query := fun _ _ _ => Ok {| pg_rows := sample_rows; pg_fields := ["id"; "name"] |};
     conn_end := fun h => if (h =? 1)%nat then Throw (DriverError "socket closed")
                          else Ok tt |}.

Definition sample_mysql : AnyDatabaseManager := Mysql mysql_shop_adapter.

Definition sample_pg : AnyDatabaseManager :=
  Postgres {| PostgresqlDatabaseManager.config :=
                InformationSchema.shop_config "postgres" 5432;
              PostgresqlDatabaseManager.conn := Some 2%nat |}.

Definition select_all : SqlQuery := {| sql := "SELECT id, name FROM people"; params := None |}.

Definition select_one : ExplainQuery :=
  {| ex_sql := "SELECT 1"; ex_params := None; analyze := false |}.

(** A server with the two sessions, inserted at time 0. *)
Definition sample_server : Server :=
  {| connCache := [ {| LRUCache.key := "pg"; LRUCache.val := sample_pg;
                       LRUCache.start := 0 |};
                    {| LRUCache.key := "my"; LRUCache.val := sample_mysql;
                       LRUCache.start := 0 |} ];
     log := [] |}.

(** A server whose registry is full: 100 sessions, the oldest last. *)
Definition full_server : Server :=
  {| connCache :=
       map (fun i => {| LRUCache.key := String (Ascii.ascii_of_nat (33 + i)) "";
                        LRUCache.val :=
                          Mysql {| MysqlDatabaseManager.config := ∅;
                                   MysqlDatabaseManager.conn := Some (100 - i)%nat |};
                        LRUCache.start := 0 |})
           (seq 0 100);
     log := [] |}.

(** The adapter of [blank_config], connected with the handle [h]. *)
Definition with_handle (h : Handle) : AnyDatabaseManager :=
  Mysql {| MysqlDatabaseManager.config := blank_config;
           MysqlDatabaseManager.conn := Some h |}.

(** A hundred sessions connected one after the other, and the server they
    leave. *)
Definition session_name (i : nat) : string := String (Ascii.ascii_of_nat (33 + i)) "".

Definition hundred_connects : list request :=
  map (fun i => Connect (Z.of_nat i) (session_name i) blank_config) (seq 0 100).

Definition oracle_config : object :=
  list_to_map [("type", VStr "oracle"); ("host", VStr "localhost"); ("port", VInt 1521);
               ("database", VStr "xe"); ("username", VStr "system");
               ("password", VStr "secret")].

(** * More of the program and of its vocabulary *)

(** ** Connecting *)

Definition any_config (m : AnyDatabaseManager) : object :=
  match m with
  | Mysql a => MysqlDatabaseManager.config a
  | Postgres b => PostgresqlDatabaseManager.config b
  end.

(** The port an adapter falls back on: [this.config.port || 3306], and
    [5432] for Postgres. *)
Definition fallback_port (m : AnyDatabaseManager) : Z :=
  match m with
  | Mysql _ => 3306
  | Postgres _ => 5432
  end.

(** The options [connect] hands to the driver. *)
Definition connect_options (m : AnyDatabaseManager) : object :=
  list_to_map [("host", get (any_config m) "host");
               ("port", or (get (any_config m) "port") (VInt (fallback_port m)));
               ("database", get (any_config m) "database");
               ("user", get (any_config m) "username");
               ("password", get (any_config m) "password")].

Definition connect_event (m : AnyDatabaseManager) : Event :=
  match m with
  | Mysql _ => MysqlCreateConnection (connect_options m)
  | Postgres _ => PgConnect (connect_options m)
  end.

(** The driver's answer to the connection an adapter asks for. *)
Definition driver_connect `{Driver} (m : AnyDatabaseManager) : result Handle :=
  match m with
  | Mysql _ => mysql_createConnection (connect_options m)
  | Postgres _ => pg_connect (connect_options m)
  end.

(** The adapter holding the handle [h]. *)
Definition with_conn (m : AnyDatabaseManager) (h : Handle) : AnyDatabaseManager :=
  match m with
  | Mysql a =>
      Mysql {| MysqlDatabaseManager.config := MysqlDatabaseManager.config a;
               MysqlDatabaseManager.conn := Some h |}
  | Postgres b =>
      Postgres {| PostgresqlDatabaseManager.config := PostgresqlDatabaseManager.config b;
                  PostgresqlDatabaseManager.conn := Some h |}
  end.

(** ** Statements and their answers *)

(** The driver rejects the statement of a query on the handle [h] with the
    error [e]. *)
Definition rejected `{Driver} (m : AnyDatabaseManager) (h : Handle) (q : SqlQuery)
    (e : exn) : Prop :=
  match m with
  | Mysql _ => mysql_execute h (sql q) (params_or_empty (params q)) = Throw e
  | Postgres _ => pg_query h (sql q) (params_or_empty (params q)) = Throw e
  end.

(** The rows the driver lists the tables with, for [introspect]. *)
Definition listing `{Driver} (m : AnyDatabaseManager) (h : Handle) : option (list object) :=
  match m with
  | Mysql a =>
      match mysql_execute h mysql_tables_sql
              [get (MysqlDatabaseManager.config a) "database"] with
      | Ok (MyRows rows _) => Some rows
      | _ => None
      end
  | Postgres _ =>
      match pg_query h pg_tables_sql [] with
      | Ok r => Some (pg_rows r)
      | Throw _ => None
      end
  end.

(** The key of a listing row that each adapter reads the name of the table
    from. *)
Definition name_key (m : AnyDatabaseManager) : string :=
  match m with
  | Mysql _ => "table_name"
  | Postgres _ => "TABLE_NAME"
  end.

(** The driver rejects the statement that asks for the columns of the
    table of a listing row. *)
Definition columns_rejected `{Driver} (m : AnyDatabaseManager) (h : Handle)
    (row : object) : Prop :=
  match m with
  | Mysql a =>
      exists e, mysql_execute h mysql_columns_sql
                  [get (MysqlDatabaseManager.config a) "database"; get row "table_name"]
                = Throw e
  | Postgres _ =>
      exists e, pg_query h pg_columns_sql [get row "TABLE_NAME"] = Throw e
  end.

(** What a step of a walk keeps: the log grows by [k] events and no handle
    is closed. *)
Definition grows (k : nat) (l l' : Log) : Prop :=
  length l' = (length l + k)%nat /\ closes l' = closes l.

(** A request that leaves alone the session [id] registered at time [t]:
    it is not a [connect] given the same identifier, nor a lookup of [id]
    later than five minutes after [t]. *)
Definition undisturbed (id : string) (t : Z) (r : request) : Prop :=
  match r with
  | Connect _ id' _ => id' <> id
  | InspectDatabase now id' | ExecuteQuery now id' _ | ExplainQuery_ now id' _ =>
      id' = id -> now - t <= 300000
  end.

(** The registry holds the entry, behind at most [n] entries of other
    keys. *)
Definition held {V} (n : nat) (entry : LRUCache.entry V)
    (items : list (LRUCache.entry V)) : Prop :=
  exists front back,
    items = front ++ entry :: back /\
    Forall (fun e => LRUCache.key e <> LRUCache.key entry) front /\
    (length front <= n)%nat.

(** The keys of the registry. *)
Definition keys (s : Server) : list string := map LRUCache.key (connCache s).

(** ** markdown.ts *)

Definition newline : string := String (Ascii.ascii_of_nat 10) "".

(** [xs.join(sep)] on an array of strings. *)
Fixpoint join (sep : string) (xs : list string) : string :=
  match xs with
  | [] => ""
  | x :: rest =>
      match rest with
      | [] => x
      | _ :: _ => x +:+ sep +:+ join sep rest
      end
  end.

(** [a || b] where [a] is a string or [undefined] and [b] a string. *)
Definition or_text (a : option string) (b : string) : string :=
  match a with
  | Some s => if String.eqb s "" then b else s
  | None => b
  end.

Section formatTable.

(** [Number.prototype.toString], which is not part of the program. *)
Variable Number_toString : number -> string.

(** [cell?.toString()] *)
Definition toString (cell : value) : option string :=
  match cell with
  | VUndefined | VNull => None
  | VBool b => Some (if b then "true" else "false")
  | VNum n => Some (Number_toString n)
  | VStr s => Some s
  end.

(** [cell?.toString() || "NULL"] *)
Definition cell_text (cell : value) : string := or_text (toString cell) "NULL".

Definition headerRow (headers : list string) : string := join " | " headers.

Definition separator (headers : list string) : string :=
  join " | " (map (fun _ => "---") headers).

Definition dataRows (rows : list (list value)) : list string :=
  map (fun row => join " | " (map cell_text row)) rows.

Definition formatTable (headers : list string) (rows : list (list value)) : string :=
  join newline (headerRow headers :: separator headers :: dataRows rows).

End formatTable.

(** The number of times a character occurs in a string. *)
Fixpoint occurrences (c : Ascii.ascii) (s : string) : nat :=
  match s with
  | EmptyString => 0
  | String c' s' => (if Ascii.eqb c' c then 1 else 0) + occurrences c s'
  end.

Definition bar : Ascii.ascii := Ascii.ascii_of_nat 124.

Definition line_feed : Ascii.ascii := Ascii.ascii_of_nat 10.

(** The lines of a text: what stands between its line feeds. *)
Fixpoint lines (s : string) : list string :=
  match s with
  | EmptyString => [""]
  | String c s' =>
      if Ascii.eqb c line_feed then "" :: lines s'
      else match lines s' with
           | first :: rest => String c first :: rest
           | [] => [String c ""]
           end
  end.

(** ** The launcher *)

Section launcher.

(** The directory of the script, [path.join] and [fs.existsSync], which
    are not part of the program. *)
Variable dirname_ : string.
Variable path_join : list string -> string.
Variable existsSync : string -> bool.

(** [getExecutablePath()], for what [os.platform()] and [os.arch()]
    give. *)
Definition getExecutablePath (osType cpuArch : string) : result string :=
  let distDir := path_join [dirname_; ".."; "dist"] in
  match
    (if String.eqb osType "linux" then Ok "dbmcp-linux-x64"
     else if String.eqb osType "win32" then Ok "dbmcp-windows-x64.exe"
     else if String.eqb osType "darwin" then
       Ok (if String.eqb cpuArch "arm64" then "dbmcp-darwin-arm64"
           else "dbmcp-darwin-x64")
     else Throw (Error ("Unsupported platform: " +:+ osType)))
  with
  | Throw e => Throw e
  | Ok executableName =>
      let executablePath := path_join [distDir; executableName] in
      if negb (existsSync executablePath)
      then Throw (Error ("Executable not found: " +:+ executablePath))
      else Ok executablePath
  end.

End launcher.

(** The platforms the launcher knows. *)
Definition supported_platform (osType : string) : bool :=
  String.eqb osType "linux" || String.eqb osType "win32" || String.eqb osType "darwin".

(** ** schemas.ts: the schemas of the queries *)

(** What a tool is given under a key: a primitive value or an array of
    them. *)
Inductive input : Type :=
| Prim (v : value)
| Arr (items : list value).

Abbreviation inputs := (gmap string input).

(** [o[k]] *)
Definition input_get (o : inputs) (k : string) : input :=
  default (Prim VUndefined) (o !! k).

(** A schema of primitives, on what is found under a key. *)
Definition on_prim (s : z.schema) (i : input) : option value :=
  match i with
  | Prim v => s v
  | Arr _ => None
  end.

(** [z.boolean()] *)
Definition z_boolean : z.schema :=
  fun v => match v with VBool _ => Some v | _ => None end.

(** [z.null()] *)
Definition z_null : z.schema :=
  fun v => match v with VNull => Some v | _ => None end.

(** [.min(n)] on a schema of strings. *)
Definition z_min (n : nat) (s : z.schema) : z.schema :=
  fun v => match s v with
           | Some (VStr x) => if (n <=? String.length x)%nat then Some (VStr x) else None
           | _ => None
           end.

Definition SqlParamSchema : z.schema :=
  z.union [z.string_; z.number_; z_boolean; z_null].

(** The items of [z.array(s)]. *)
Fixpoint z_items (s : z.schema) (items : list value) : option (list value) :=
  match items with
  | [] => Some []
  | v :: rest =>
      match s v, z_items s rest with
      | Some v', Some rest' => Some (v' :: rest')
      | _, _ => None
      end
  end.

(** [z.array(s).optional()] *)
Definition z_array_optional (s : z.schema) (i : input) : option (option (list value)) :=
  match i with
  | Prim VUndefined => Some None
  | Prim _ => None
  | Arr items =>
      match z_items s items with
      | Some items' => Some (Some items')
      | None => None
      end
  end.

(** The key of a field that did not parse. *)
Definition issue {A} (k : string) (parsed : option A) : list string :=
  match parsed with
  | Some _ => []
  | None => [k]
  end.

(** [sql: z.string().min(1, "Query cannot be empty")] *)
Definition sql_field (i : input) : option string :=
  match on_prim (z_min 1 z.string_) i with
  | Some (VStr s) => Some s
  | _ => None
  end.

(** [analyze: z.boolean().default(false)] *)
Definition analyze_field (i : input) : option bool :=
  match on_prim (z.default_ z_boolean (VBool false)) i with
  | Some (VBool b) => Some b
  | _ => None
  end.

(** [SqlQuerySchema.parse(o)] *)
Definition SqlQuerySchema_parse (o : inputs) : result SqlQuery :=
  let sql_ := sql_field (input_get o "sql") in
  let params_ := z_array_optional SqlParamSchema (input_get o "params") in
  match sql_, params_ with
  | Some s, Some ps => Ok {| sql := s; params := ps |}
  | _, _ => Throw (ZodError (issue "sql" sql_ ++ issue "params" params_))
  end.

(** [ExplainQuerySchema.parse(o)] *)
Definition ExplainQuerySchema_parse (o : inputs) : result ExplainQuery :=
  let sql_ := sql_field (input_get o "sql") in
  let params_ := z_array_optional SqlParamSchema (input_get o "params") in
  let analyze_ := analyze_field (input_get o "analyze") in
  match sql_, params_, analyze_ with
  | Some s, Some ps, Some b => Ok {| ex_sql := s; ex_params := ps; analyze := b |}
  | _, _, _ =>
      Throw (ZodError (issue "sql" sql_ ++ issue "params" params_
                       ++ issue "analyze" analyze_))
  end.

(** A parameter a query may carry: a string, a number that is not [NaN],
    a boolean or [null]. *)
Definition sql_param (v : value) : Prop :=
  match v with
  | VUndefined | VNum NaN => False
  | _ => True
  end.

(** ** The name of the database *)

(** The rows the driver answers the statement for the name of the database
    with; a header has no rows. *)
Definition database_rows `{Driver} (m : AnyDatabaseManager) (h : Handle) : list object :=
  match m with
  | Mysql _ =>
      match mysql_execute h mysql_database_sql [] with
      | Ok (MyRows rows _) => rows
      | _ => []
      end
  | Postgres _ =>
      match pg_query h pg_database_sql [] with
      | Ok r => pg_rows r
      | Throw _ => []
      end
  end.

(** The engine names no database: it gives no row, or a first row whose
    [db_name] is missing, [null] or empty. *)
Definition unnamed (rows : list object) : Prop :=
  match rows with
  | [] => True
  | row :: _ =>
      row !! "db_name" = None \/ row !! "db_name" = Some VNull \/
      row !! "db_name" = Some (VStr "")
  end.

(** ** More samples *)

(** A driver that refuses MySQL connections, lists one table, rejects the
    statement for its columns and any statement it cannot parse, and answers
    an [INSERT] with a header. *)
Definition faulty_driver : Driver :=
  {| mysql_createConnection := fun _ => Throw (DriverError "ECONNREFUSED");
     mysql_execute := fun _ q _ =>
       if String.eqb q mysql_tables_sql then
         Ok (MyRows [list_to_map [("table_name", VStr "people")]] ["table_name"])
       else if String.eqb q mysql_database_sql then Ok (MyRows [] ["db_name"])
       else if String.eqb q "INSERT INTO people (name) VALUES (?)" then Ok MyHeader
       else Throw (DriverError "ER_PARSE_ERROR");
     pg_connect := fun _ => Ok 2%nat;
     pg_query := fun _ _ _ => Ok {| pg_rows := []; pg_fields := [] |};
     conn_end := fun _ => Ok tt |}.

Definition misspelt_query : SqlQuery := {| sql := "SELEC 1"; params := None |}.

Definition insert_query : SqlQuery :=
  {| sql := "INSERT INTO people (name) VALUES (?)"; params := Some [VStr "Ada"] |}.

(** A configuration without a host. *)
Definition hostless_config : object :=
  list_to_map [("type", VStr "postgres"); ("port", VInt 6543);
               ("database", VStr "shop"); ("username", VStr "dbmcp");
               ("password", VStr "")].

(** Requests between a connection and a later query: another connection,
    a lookup in time of the session, a lookup of a session unknown. *)
Definition sample_between : list request :=
  [Connect 20 "other" hostless_config;
   ExecuteQuery 30 "id" {| sql := "SELECT 1"; params := None |};
   InspectDatabase 400000 "gone"].

Definition sample_entry_my : LRUCache.entry AnyDatabaseManager :=
  {| LRUCache.key := "my"; LRUCache.val := sample_mysql; LRUCache.start := 0 |}.

(** Numbers printed as a fixed text, for the samples. *)
Definition sample_Number_toString (n : number) : string := "7".

Definition sample_explain_input : inputs :=
  list_to_map [("sql", Prim (VStr "SELECT 1"))].

Definition sample_query_input : inputs :=
  list_to_map [("sql", Prim (VStr "SELECT ?")); ("params", Arr [VInt 1])].

(** A file system that only holds the executable for Linux. *)
Definition sample_path_join (parts : list string) : string := join "/" parts.

Definition sample_existsSync (path : string) : bool :=
  String.eqb path "/opt/dbmcp/bin/../dist/dbmcp-linux-x64".

(** * Properties *)

(** ** Tactics for running a computation *)

Ltac run :=
  cbn [execute introspect connect disconnect AnyConnection MysqlConnection
       PostgresqlConnection];
  unfold MysqlDatabaseManager.execute, PostgresqlDatabaseManager.execute,
         MysqlDatabaseManager.introspect, PostgresqlDatabaseManager.introspect,
         MysqlDatabaseManager.disconnect, PostgresqlDatabaseManager.disconnect,
         MysqlDatabaseManager.conn_execute, PostgresqlDatabaseManager.conn_query,
         bind, try_catch, emit, lift, ret, throw;
  cbn [MysqlDatabaseManager.conn PostgresqlDatabaseManager.conn
       MysqlDatabaseManager.config PostgresqlDatabaseManager.config].

(** ** Rows of a result *)

Lemma formatRow_length (cols : list string) (row : object) :
  length (formatRow cols row) = length cols.
Proof. unfold formatRow. apply length_map. Qed.

Lemma formatRow_lookup (cols : list string) (row : object) (i : nat) (col : string) :
  cols !! i = Some col -> formatRow cols row !! i = Some (cell_of row col).
Proof.
  intros Hi. unfold formatRow. rewrite list_lookup_fmap, Hi. cbn.
  unfold cell_of, get. destruct (row !! col); reflexivity.
Qed.

Lemma formatRows_aligned (cols : list string) (rows : list object) :
  Forall2 (aligned cols) rows (formatRows cols rows).
Proof.
  unfold formatRows.
  induction rows as [|row rows IH]; cbn; constructor; [|exact IH].
  split; [apply formatRow_length | intros i col; apply formatRow_lookup].
Qed.

(** C2: whenever [execute] of either adapter returns a result, its columns
    are the fields the driver answered with, and every row of the result has
    exactly one cell per column, in the order of the columns: the cell is the
    field of the native row under that column's name, and [null] when the
    native row has no such field. *)
Theorem execute_rows_aligned `{Driver} (m : AnyDatabaseManager) (q : SqlQuery)
    (l l' : Log) (r : SqlQueryResult) :
  execute m q l = (Ok r, l') ->
  exists native : list object,
    answered m q native (res_columns r) /\
    Forall2 (aligned (res_columns r)) native (res_rows r) /\
    Forall (fun cells => length cells = length (res_columns r)) (res_rows r) /\
    forall row cells col i,
      (native !! i = Some row /\ res_rows r !! i = Some cells) ->
      forall j, res_columns r !! j = Some col -> row !! col = None ->
      cells !! j = Some VNull.
Proof.
  intros Hrun.
  assert (exists native, answered m q native (res_columns r) /\
            res_rows r = formatRows (res_columns r) native) as (native & Hans & Hrows).
  { destruct m as [a|b]; revert Hrun; run.
    - destruct (MysqlDatabaseManager.conn a) as [h|] eqn:Hc; [|discriminate].
      destruct (mysql_execute h _ _) as [[rows fields|]|e] eqn:Hd; try discriminate.
      intros [= <- <-]. exists rows. split; [|reflexivity].
      exists h. split; [exact Hc|exact Hd].
    - destruct (PostgresqlDatabaseManager.conn b) as [h|] eqn:Hc; [|discriminate].
      destruct (pg_query h _ _) as [[rows fields]|e] eqn:Hd; try discriminate.
      cbn. intros [= <- <-]. exists rows. split; [|reflexivity].
      exists h. split; [exact Hc|exact Hd]. }
  exists native. split; [exact Hans|].
  pose proof (formatRows_aligned (res_columns r) native) as Hal.
  rewrite <- Hrows in Hal.
  split; [exact Hal|]. split.
  - rewrite Hrows. unfold formatRows. apply Forall_fmap, Forall_forall.
    intros row _. apply formatRow_length.
  - intros row cells col i [Hrow Hcells] j Hj Hnone.
    destruct (Forall2_lookup_lr _ _ _ _ _ _ Hal Hrow Hcells) as [_ Hcell].
    rewrite (Hcell j col Hj). unfold cell_of. rewrite Hnone. reflexivity.
Qed.

(** ** Disconnecting *)

Lemma disconnect_run `{Driver} (m : AnyDatabaseManager) (l : Log) :
  disconnect m l =
  (Ok (match any_conn m with None => m | Some _ => disconnected m end),
   l ++ disconnect_events m).
Proof.
  unfold disconnect_events, close_events.
  destruct m as [[cfg [h|]]|[cfg [h|]]]; run; cbn;
    rewrite ?app_nil_r; try reflexivity;
    destruct (conn_end h) as [[]|e]; cbn; rewrite <- ?app_assoc; reflexivity.
Qed.

(** C6: [disconnect] of either adapter returns without raising whatever the
    underlying close does (a failure is only written to the console), the
    handle is null afterwards, [end] has been called once on the handle
    there was, and a second [disconnect] returns the same adapter and leaves
    the log as it is: no error and no second call of [end]. *)
Theorem disconnect_idempotent `{Driver} (m : AnyDatabaseManager) (l : Log) :
  exists m' : AnyDatabaseManager,
    disconnect m l = (Ok m', l ++ disconnect_events m) /\
    any_conn m' = None /\
    closes (disconnect_events m) = option_list (any_conn m) /\
    forall l2 : Log, disconnect m' l2 = (Ok m', l2).
Proof.
  exists (match any_conn m with None => m | Some _ => disconnected m end).
  split; [apply disconnect_run|].
  assert (any_conn (match any_conn m with None => m | Some _ => disconnected m end) = None)
    as Hnone.
  { destruct m as [[cfg [h|]]|[cfg [h|]]]; reflexivity. }
  split; [exact Hnone|]. split.
  - unfold disconnect_events, close_events.
    destruct (any_conn m) as [h|]; cbn; [|reflexivity].
    destruct (conn_end h) as [[]|e]; reflexivity.
  - intros l2. rewrite disconnect_run. unfold disconnect_events.
    rewrite Hnone, app_nil_r. reflexivity.
Qed.

(** ** The guard on the handle *)

Lemma createManagerFromConfig_fresh (config : object) (m : AnyDatabaseManager) :
  createManagerFromConfig config = Ok m -> any_conn m = None.
Proof.
  unfold createManagerFromConfig.
  destruct (z.parse _ _) as [o|e]; [|discriminate].
  unfold MysqlDatabaseManager.new, PostgresqlDatabaseManager.new.
  destruct (eq_str (get o "type") "mysql"); cbn.
  - intros [= <-]. reflexivity.
  - destruct (eq_str (get o "type") "postgres"); cbn; [|discriminate].
    intros [= <-]. reflexivity.
Qed.

(** C7: on an adapter whose handle is null, and so on one that the factory
    has just constructed, [execute] and [introspect] throw the error
    [Not connected] and leave the log as it is: no call reaches a driver. *)
Theorem not_connected_guard `{Driver} (m : AnyDatabaseManager) (q : SqlQuery) (l : Log) :
  (any_conn m = None \/ exists config, createManagerFromConfig config = Ok m) ->
  execute m q l = (Throw (Error "Not connected"), l) /\
  introspect m l = (Throw (Error "Not connected"), l).
Proof.
  intros Hm.
  assert (any_conn m = None) as Hnone.
  { destruct Hm as [Hm|[config Hm]]; [exact Hm|].
    exact (createManagerFromConfig_fresh config m Hm). }
  destruct m as [[cfg [h|]]|[cfg [h|]]]; try discriminate; split; reflexivity.
Qed.

(** ** Lookups in the registry *)

Lemma connCache_get_live `{Driver} (now : Z) (id : string) (s : Server)
    (e : LRUCache.entry AnyDatabaseManager) :
  live now id s e ->
  connCache_get now id s
  = (Ok (Some (LRUCache.val e)), {| connCache := touched id s e; log := log s |}).
Proof.
  intros [Hfind Hfresh]. unfold connCache_get, LRUCache.get.
  rewrite Hfind, Hfresh. reflexivity.
Qed.

Lemma execute_log `{Driver} (m : AnyDatabaseManager) (h : Handle) (q : SqlQuery) (l : Log) :
  any_conn m = Some h ->
  snd (execute m q l) = l ++ [driver_call m h (sql q) (params_or_empty (params q))].
Proof.
  destruct m as [[cfg c]|[cfg c]]; cbn [any_conn]; run; intros ->; cbn.
  - destruct (mysql_execute h _ _) as [[rows fields|]|e]; reflexivity.
  - destruct (pg_query h _ _) as [r|e]; reflexivity.
Qed.

(** ** Explain *)

Lemma explain_query_live `{Driver} (now : Z) (id : string) (query : ExplainQuery)
    (s : Server) (e : LRUCache.entry AnyDatabaseManager) :
  live now id s e ->
  explain_query now id query s =
  let out := execute (LRUCache.val e)
               {| sql := explainQuery query; params := ex_params query |} (log s) in
  (explained query (fst out), {| connCache := touched id s e; log := snd out |}).
Proof.
  intros Hlive. unfold explain_query, bind at 1.
  rewrite (connCache_get_live now id s e Hlive).
  unfold bind, zoom, ret. cbn [log connCache].
  destruct (execute _ _ _) as [[res|err] l']; reflexivity.
Qed.

(** C3: for a live session, [explain_query] runs the adapter's [execute]
    once, on the statement [EXPLAIN ] (or [EXPLAIN ANALYZE ] when [analyze]
    is set) followed by the original sql and with the parameters it was
    given; it returns the columns and rows of that result with the original
    sql and the flag, and throws what [execute] throws.  On a connected
    adapter the one call the driver receives carries exactly that statement;
    for [SELECT 1] it is [EXPLAIN SELECT 1], and [EXPLAIN ANALYZE SELECT 1]
    with [analyze]. *)
Theorem explain_passthrough `{Driver} (now : Z) (id : string) (query : ExplainQuery)
    (s : Server) (e : LRUCache.entry AnyDatabaseManager) :
  live now id s e ->
  let statement :=
    (if analyze query then "EXPLAIN ANALYZE " else "EXPLAIN ") +:+ ex_sql query in
  let out := execute (LRUCache.val e)
               {| sql := statement; params := ex_params query |} (log s) in
  explain_query now id query s
  = (explained query (fst out), {| connCache := touched id s e; log := snd out |}) /\
  (forall res, fst out = Ok res ->
     fst (explain_query now id query s)
     = Ok {| explain_columns := res_columns res; explain_rows := res_rows res;
             originalQuery := ex_sql query; withAnalysis := analyze query |}) /\
  (forall h, any_conn (LRUCache.val e) = Some h ->
     log (snd (explain_query now id query s))
     = log s ++ [driver_call (LRUCache.val e) h statement
                   (params_or_empty (ex_params query))]) /\
  (ex_sql query = "SELECT 1" ->
     statement = if analyze query then "EXPLAIN ANALYZE SELECT 1" else "EXPLAIN SELECT 1").
Proof.
  intros Hlive statement out.
  assert (explainQuery query = statement) as Hstmt.
  { unfold explainQuery, statement. destruct (analyze query); reflexivity. }
  pose proof (explain_query_live now id query s e Hlive) as Hrun.
  cbv zeta in Hrun. rewrite Hstmt in Hrun. fold out in Hrun.
  split; [exact Hrun|]. split; [|split].
  - intros res Hres. rewrite Hrun. cbn [fst]. rewrite Hres. reflexivity.
  - intros h Hh. rewrite Hrun. cbn [snd log]. unfold out.
    rewrite (execute_log _ h _ _ Hh). reflexivity.
  - intros Hsql. unfold statement. rewrite Hsql. destruct (analyze query); reflexivity.
Qed.

(** C10: the statement [explain_query] sends does not depend on the engine
    of the session: for a live session on a connected MySQL adapter and a
    live session on a connected Postgres adapter, the same query makes each
    driver receive one call, with the same statement, a function of the sql
    and the flag alone, and the same parameters. *)
Theorem explain_rewrite_engine_independent `{Driver} (now1 now2 : Z) (id1 id2 : string)
    (query : ExplainQuery) (s1 s2 : Server)
    (e1 e2 : LRUCache.entry AnyDatabaseManager)
    (a : MysqlDatabaseManager.t) (b : PostgresqlDatabaseManager.t) (h1 h2 : Handle) :
  live now1 id1 s1 e1 -> LRUCache.val e1 = Mysql a ->
  MysqlDatabaseManager.conn a = Some h1 ->
  live now2 id2 s2 e2 -> LRUCache.val e2 = Postgres b ->
  PostgresqlDatabaseManager.conn b = Some h2 ->
  exists statement : string,
    statement = explainQuery {| ex_sql := ex_sql query; ex_params := None;
                                analyze := analyze query |} /\
    log (snd (explain_query now1 id1 query s1))
    = log s1 ++ [MysqlExecute h1 statement (params_or_empty (ex_params query))] /\
    log (snd (explain_query now2 id2 query s2))
    = log s2 ++ [PgQuery h2 statement (params_or_empty (ex_params query))].
Proof.
  intros Hl1 Hv1 Hc1 Hl2 Hv2 Hc2.
  exists (explainQuery query). split; [reflexivity|].
  rewrite (explain_query_live now1 id1 query s1 e1 Hl1).
  rewrite (explain_query_live now2 id2 query s2 e2 Hl2).
  cbn [snd log]. split.
  - rewrite (execute_log _ h1); [rewrite Hv1; reflexivity|].
    rewrite Hv1. exact Hc1.
  - rewrite (execute_log _ h2); [rewrite Hv2; reflexivity|].
    rewrite Hv2. exact Hc2.
Qed.

(** ** The registry: entries, capacity and time-to-live *)

Section registry_facts.
Context {V : Type}.
Implicit Types (items : list (LRUCache.entry V)) (e : LRUCache.entry V) (k : string).

Lemma find_key items k e : LRUCache.find k items = Some e -> LRUCache.key e = k.
Proof.
  unfold LRUCache.find. intros Hfind.
  apply find_some in Hfind as [_ Heq]. apply String.eqb_eq. exact Heq.
Qed.


Lemma find_head items k e :
  LRUCache.key e = k -> LRUCache.find k (e :: items) = Some e.
Proof.
  intros <-. unfold LRUCache.find. cbn. rewrite String.eqb_refl. reflexivity.
Qed.

Lemma remove_length items k :
  (length (LRUCache.remove k items) <= length items)%nat.
Proof.
  unfold LRUCache.remove.
  induction items as [|x items IH]; cbn; [lia|].
  destruct (negb _); cbn; [apply le_n_S | apply Nat.le_le_succ_r]; exact IH.
Qed.

Lemma remove_found_length items k e :
  LRUCache.find k items = Some e ->
  (length (LRUCache.remove k items) < length items)%nat.
Proof.
  unfold LRUCache.find, LRUCache.remove.
  induction items as [|x items IH]; cbn; [discriminate|].
  destruct (String.eqb (LRUCache.key x) k) eqn:Hk; cbn.
  - intros _. apply Nat.lt_succ_r. exact (remove_length items k).
  - intros Hfind. apply (proj1 (Nat.succ_lt_mono _ _)). exact (IH Hfind).
Qed.

Lemma lru_last items victim :
  LRUCache.lru items = Some victim ->
  items = removelast items ++ [victim].
Proof.
  unfold LRUCache.lru. intros Hlast.
  destruct items as [|x items] using rev_ind; [discriminate|].
  rewrite last_snoc in Hlast. injection Hlast as ->.
  rewrite removelast_last. reflexivity.
Qed.

Lemma set_length (opts : LRUCache.options) now k (v : V) items :
  (0 < LRUCache.max opts)%nat ->
  (length items <= LRUCache.max opts)%nat ->
  (length (fst (LRUCache.set opts now k v items)) <= LRUCache.max opts)%nat.
Proof.
  intros Hmax Hlen. unfold LRUCache.set.
  destruct (LRUCache.find k items) as [old|] eqn:Hfind; cbn [fst length].
  - pose proof (remove_found_length items k old Hfind). lia.
  - destruct (length items <? LRUCache.max opts)%nat eqn:Hlt; cbn [fst length].
    + apply Nat.ltb_lt in Hlt. lia.
    + destruct (LRUCache.lru items) as [victim|] eqn:Hlru; cbn [fst length].
      * apply lru_last in Hlru. rewrite Hlru in Hlen.
        rewrite length_app in Hlen. cbn [length] in Hlen. lia.
      * unfold LRUCache.lru in Hlru. apply last_None in Hlru. subst items. cbn [length]. lia.
Qed.

Lemma get_length (opts : LRUCache.options) now k items :
  (length (snd (fst (LRUCache.get opts now k items))) <= length items)%nat.
Proof.
  unfold LRUCache.get.
  destruct (LRUCache.find k items) as [e|] eqn:Hfind; cbn [fst snd]; [|lia].
  pose proof (remove_found_length items k e Hfind).
  destruct (LRUCache.isStale opts now e); cbn [fst snd length]; lia.
Qed.

(** At capacity, [set] of a new key drops the last entry, keeps the
    others in their order and hands the dropped value, alone, to the
    disposal hook. *)
Lemma set_at_capacity (opts : LRUCache.options) now k (v : V) items :
  (0 < LRUCache.max opts)%nat ->
  length items = LRUCache.max opts ->
  LRUCache.find k items = None ->
  exists rest victim,
    items = rest ++ [victim] /\
    LRUCache.lru items = Some victim /\
    LRUCache.set opts now k v items
    = ({| LRUCache.key := k; LRUCache.val := v; LRUCache.start := now |} :: rest,
       [LRUCache.val victim]).
Proof.
  intros Hmax Hlen Hfind. unfold LRUCache.set. rewrite Hfind.
  replace (length items <? LRUCache.max opts)%nat with false
    by (symmetry; apply Nat.ltb_ge; lia).
  destruct (LRUCache.lru items) as [victim|] eqn:Hlru.
  - exists (removelast items), victim.
    split; [apply lru_last; exact Hlru|]. split; reflexivity.
  - unfold LRUCache.lru in Hlru. apply last_None in Hlru. subst items.
    cbn in Hlen. lia.
Qed.

End registry_facts.

(** ** Disposal *)

Section disposal.
Context `{Driver}.

Lemma dispose_run (v : AnyDatabaseManager) (l : Log) :
  dispose v l = (Ok tt, l ++ disconnect_events v).
Proof.
  unfold dispose, try_catch, bind. rewrite disconnect_run. reflexivity.
Qed.

Lemma dispose_all_run (values : list AnyDatabaseManager) (l : Log) :
  dispose_all values l = (Ok tt, l ++ disposal_events values).
Proof.
  unfold dispose_all, disposal_events, bind.
  assert (forall l0, exists units,
            mapM dispose values l0
            = (Ok units, l0 ++ concat (map disconnect_events values))) as Hmap.
  { induction values as [|v values IH]; intros l0; cbn.
    - exists []. unfold ret. rewrite app_nil_r. reflexivity.
    - unfold bind. rewrite dispose_run.
      destruct (IH (l0 ++ disconnect_events v)) as [units ->].
      exists (tt :: units). unfold ret. rewrite app_assoc. reflexivity. }
  destruct (Hmap l) as [units ->]. reflexivity.
Qed.

Lemma connCache_set_run (now : Z) (k : string) (v : AnyDatabaseManager) (s : Server) :
  connCache_set now k v s =
  let out := LRUCache.set connCache_options now k v (connCache s) in
  (Ok tt, {| connCache := fst out; log := log s ++ disposal_events (snd out) |}).
Proof.
  unfold connCache_set.
  destruct (LRUCache.set _ _ _ _ _) as [items disposed]. cbn.
  rewrite dispose_all_run. reflexivity.
Qed.

Lemma connCache_get_run (now : Z) (k : string) (s : Server) :
  connCache_get now k s =
  let out := LRUCache.get connCache_options now k (connCache s) in
  (Ok (fst (fst out)),
   {| connCache := snd (fst out); log := log s ++ disposal_events (snd out) |}).
Proof.
  unfold connCache_get.
  destruct (LRUCache.get _ _ _ _) as [[found items] disposed]. cbn.
  rewrite dispose_all_run. reflexivity.
Qed.

Lemma zoom_connCache {A} (m : IO A) (s : Server) :
  connCache (snd (zoom m s)) = connCache s.
Proof. unfold zoom. destruct (m (log s)). reflexivity. Qed.

Lemma connCache_get_bounded (now : Z) (k : string) (s : Server) :
  bounded s -> bounded (snd (connCache_get now k s)).
Proof.
  unfold bounded. intros Hs. rewrite connCache_get_run. cbn [snd connCache].
  pose proof (get_length connCache_options now k (connCache s)). lia.
Qed.

Lemma connCache_set_bounded (now : Z) (k : string) (v : AnyDatabaseManager) (s : Server) :
  bounded s -> bounded (snd (connCache_set now k v s)).
Proof.
  unfold bounded. intros Hs. rewrite connCache_set_run. cbn [snd connCache].
  apply (set_length connCache_options); cbn [LRUCache.max connCache_options]; lia.
Qed.

(** A handler that looks the session up and then only uses the adapter. *)
Lemma lookup_then_bounded {A} (now : Z) (k : string)
    (body : AnyDatabaseManager -> IO A) (s : Server) :
  bounded s ->
  bounded (snd ((found <- connCache_get now k;;
                 match found with
                 | None => throw (no_connection k)
                 | Some dbManager => zoom (body dbManager)
                 end) s)).
Proof.
  intros Hs. unfold bind.
  pose proof (connCache_get_bounded now k s Hs) as Hget.
  destruct (connCache_get now k s) as [[[m|]|e] s']; cbn [snd] in *.
  - unfold bounded. rewrite zoom_connCache. exact Hget.
  - exact Hget.
  - exact Hget.
Qed.

Lemma serve_bounded (s : Server) (r : request) : bounded s -> bounded (serve s r).
Proof.
  intros Hs. destruct r as [now id config|now id|now id q|now id q]; cbn [serve].
  - unfold connect_tool, bind, lift.
    destruct (createManagerFromConfig config) as [m|e]; [|exact Hs].
    pose proof (zoom_connCache (connect m) s) as Hz.
    destruct (zoom (connect m) s) as [[m'|e] s1]; cbn [snd] in *.
    + assert (bounded s1) as Hs1 by (unfold bounded; rewrite Hz; exact Hs).
      pose proof (connCache_set_bounded now id m' s1 Hs1) as Hset.
      destruct (connCache_set now id m' s1) as [[[]|e] s2]; exact Hset.
    + unfold bounded. rewrite Hz. exact Hs.
  - exact (lookup_then_bounded now id introspect s Hs).
  - exact (lookup_then_bounded now id (fun m => execute m q) s Hs).
  - unfold explain_query, bind, ret.
    pose proof (connCache_get_bounded now id s Hs) as Hget.
    destruct (connCache_get now id s) as [[[m|]|e] s']; cbn [snd] in *;
      try exact Hget.
    pose proof (zoom_connCache (execute m {| sql := explainQuery q;
                                             params := ex_params q |}) s') as Hz.
    destruct (zoom _ s') as [[res|e] s'']; cbn [snd] in *;
      unfold bounded; rewrite Hz; exact Hget.
Qed.

Lemma serve_all_bounded (requests : list request) : bounded (serve_all requests).
Proof.
  unfold serve_all.
  assert (forall s, bounded s -> bounded (fold_left serve requests s)) as Hall.
  { induction requests as [|r requests IH]; intros s Hs; cbn; [exact Hs|].
    apply IH, serve_bounded, Hs. }
  apply Hall. unfold bounded, start. cbn. lia.
Qed.

End disposal.

(** ** The order of the registry *)

Section recency_facts.
Context {V : Type}.
Implicit Types (items : list (LRUCache.entry V)) (e : LRUCache.entry V) (k : string)
  (h : list (option string)).

Lemma idle_used h k : idle (Some k :: h) k = 0%nat.
Proof. cbn. rewrite String.eqb_refl. reflexivity. Qed.

Lemma idle_other h k k' : k <> k' -> idle (Some k :: h) k' = S (idle h k').
Proof. intros Hk. cbn. apply String.eqb_neq in Hk. rewrite Hk. reflexivity. Qed.

Lemma recent_later h h' items :
  (forall e, In e items -> idle h' (LRUCache.key e) = S (idle h (LRUCache.key e))) ->
  recent h items -> recent h' items.
Proof.
  induction items as [|a items IH]; intros Hidle; cbn [recent]; [exact id|].
  intros [Hhead Htail]. split.
  - rewrite Forall_forall in *. intros b Hb.
    rewrite (Hidle a) by (left; reflexivity).
    rewrite (Hidle b) by (right; apply list_elem_of_In; exact Hb).
    apply (proj1 (Nat.succ_lt_mono _ _)). exact (Hhead b Hb).
  - apply IH; [|exact Htail]. intros e He. apply Hidle. right. exact He.
Qed.

Lemma recent_filter h (f : LRUCache.entry V -> bool) items :
  recent h items -> recent h (List.filter f items).
Proof.
  induction items as [|a items IH]; cbn [recent List.filter]; [exact id|].
  intros [Hhead Htail]. destruct (f a); cbn [recent]; [|exact (IH Htail)].
  split; [|exact (IH Htail)].
  rewrite Forall_forall in *. intros b Hb. apply Hhead.
  apply list_elem_of_In. apply list_elem_of_In, filter_In in Hb as [Hb _]. exact Hb.
Qed.

Lemma recent_app_l h (l1 l2 : list (LRUCache.entry V)) :
  recent h (l1 ++ l2) -> recent h l1.
Proof.
  induction l1 as [|a l1 IH]; cbn [recent app]; [intros _; exact I|].
  intros [Hhead Htail]. split; [|exact (IH Htail)].
  apply Forall_app in Hhead as [Hhead _]. exact Hhead.
Qed.

Lemma recent_last h (rest : list (LRUCache.entry V)) (victim : LRUCache.entry V) :
  recent h (rest ++ [victim]) ->
  forall e, In e rest ->
            (idle h (LRUCache.key e) < idle h (LRUCache.key victim))%nat.
Proof.
  induction rest as [|a rest IH]; cbn [recent app]; [intros _ e []|].
  intros [Hhead Htail] e [<-|He]; [|exact (IH Htail e He)].
  apply Forall_app in Hhead as [_ Hlast].
  apply Forall_cons in Hlast as [Hlast _]. exact Hlast.
Qed.

(** A use puts the entry used in front of the entries of the other
    keys. *)
Lemma recent_push h k e (tl : list (LRUCache.entry V)) :
  LRUCache.key e = k ->
  (forall b, In b tl -> LRUCache.key b <> k) ->
  recent h tl ->
  recent (Some k :: h) (e :: tl).
Proof.
  intros Hk Htl Hrec. cbn [recent]. split.
  - apply Forall_forall. intros b Hb. apply list_elem_of_In in Hb.
    rewrite Hk, idle_used, idle_other; [lia|].
    intros Heq. exact (Htl b Hb (eq_sym Heq)).
  - apply (recent_later h); [|exact Hrec].
    intros b Hb. apply idle_other. intros Heq. exact (Htl b Hb (eq_sym Heq)).
Qed.

Lemma recent_pass h items : recent h items -> recent (None :: h) items.
Proof. apply recent_later. intros e _. reflexivity. Qed.

Lemma remove_In items k (b : LRUCache.entry V) :
  In b (LRUCache.remove k items) -> LRUCache.key b <> k /\ In b items.
Proof.
  unfold LRUCache.remove. intros Hb. apply filter_In in Hb as [Hb Hk].
  apply negb_true_iff, String.eqb_neq in Hk. split; assumption.
Qed.

Lemma find_None_In items k (b : LRUCache.entry V) :
  LRUCache.find k items = None -> In b items -> LRUCache.key b <> k.
Proof.
  unfold LRUCache.find. intros Hfind Hb.
  apply String.eqb_neq. exact (find_none _ _ Hfind b Hb).
Qed.

Lemma used_later h (u : option string) (items tl : list (LRUCache.entry V)) :
  (forall b, In b tl -> In b items) ->
  Forall (fun e => In (Some (LRUCache.key e)) h) items ->
  Forall (fun e => In (Some (LRUCache.key e)) (u :: h)) tl.
Proof.
  intros Hsub Hused. rewrite Forall_forall in *. intros b Hb. right.
  apply Hused. apply list_elem_of_In, Hsub, list_elem_of_In, Hb.
Qed.

Lemma tracked_push h k e (items tl : list (LRUCache.entry V)) :
  LRUCache.key e = k ->
  (forall b, In b tl -> LRUCache.key b <> k /\ In b items) ->
  recent h tl ->
  tracked h items ->
  tracked (Some k :: h) (e :: tl).
Proof.
  intros Hk Htl Hrec [_ Hused]. split.
  - apply recent_push; [exact Hk| |exact Hrec]. intros b Hb. exact (proj1 (Htl b Hb)).
  - constructor; [left; rewrite Hk; reflexivity|].
    apply (used_later h _ items); [|exact Hused]. intros b Hb. exact (proj2 (Htl b Hb)).
Qed.

(** [set] uses its key. *)
Lemma set_tracked (opts : LRUCache.options) h now k (v : V) items :
  tracked h items ->
  tracked (Some k :: h) (fst (LRUCache.set opts now k v items)).
Proof.
  intros Htr. pose proof Htr as [Hrec _]. unfold LRUCache.set.
  destruct (LRUCache.find k items) as [old|] eqn:Hfind; cbn [fst].
  - apply (tracked_push h k _ items); [reflexivity| | |exact Htr].
    + intros b Hb. exact (remove_In _ _ _ Hb).
    + apply recent_filter. exact Hrec.
  - destruct (length items <? _)%nat; cbn [fst].
    + apply (tracked_push h k _ items); [reflexivity| |exact Hrec|exact Htr].
      intros b Hb. split; [exact (find_None_In _ _ _ Hfind Hb)|exact Hb].
    + destruct (LRUCache.lru items) as [victim|] eqn:Hlru; cbn [fst].
      * apply lru_last in Hlru.
        apply (tracked_push h k _ items); [reflexivity| | |exact Htr].
        -- intros b Hb.
           assert (In b items) as Hin by (rewrite Hlru; apply in_or_app; left; exact Hb).
           split; [exact (find_None_In _ _ _ Hfind Hin)|exact Hin].
        -- apply (recent_app_l h _ [victim]). rewrite <- Hlru. exact Hrec.
      * apply (tracked_push h k _ items); [reflexivity| |exact Hrec|exact Htr].
        intros b Hb. split; [exact (find_None_In _ _ _ Hfind Hb)|exact Hb].
Qed.

(** [get] uses its key when it gives a value. *)
Lemma get_tracked (opts : LRUCache.options) h now k items :
  tracked h items ->
  tracked (match fst (fst (LRUCache.get opts now k items)) with
           | Some _ => Some k
           | None => None
           end :: h)
          (snd (fst (LRUCache.get opts now k items))).
Proof.
  intros Htr. pose proof Htr as [Hrec Hused]. unfold LRUCache.get.
  destruct (LRUCache.find k items) as [e|] eqn:Hfind; cbn [fst snd].
  - destruct (LRUCache.isStale opts now e); cbn [fst snd].
    + split; [apply recent_pass, recent_filter, Hrec|].
      apply (used_later h _ items); [|exact Hused].
      intros b Hb. exact (proj2 (remove_In _ _ _ Hb)).
    + apply (tracked_push h k _ items); [exact (find_key _ _ _ Hfind)| | |exact Htr].
      * intros b Hb. exact (remove_In _ _ _ Hb).
      * apply recent_filter. exact Hrec.
  - split; [apply recent_pass, Hrec|].
    apply (used_later h _ items); [|exact Hused]. intros b Hb. exact Hb.
Qed.

Lemma tracked_pass h items : tracked h items -> tracked (None :: h) items.
Proof.
  intros [Hrec Hused]. split; [apply recent_pass, Hrec|].
  apply (used_later h _ items); [|exact Hused]. intros b Hb. exact Hb.
Qed.

End recency_facts.

Section tracking.
Context `{Driver}.

(** What a request does to the registry: a [connect] sets its identifier,
    if it gets that far; a lookup gets its identifier. *)
Lemma serve_registry (s : Server) (r : request) :
  match r with
  | Connect now id config =>
      (use s r = None /\ connCache (serve s r) = connCache s) \/
      (exists v, use s r = Some id /\
                 connCache (serve s r)
                 = fst (LRUCache.set connCache_options now id v (connCache s)))
  | InspectDatabase now id | ExecuteQuery now id _ | ExplainQuery_ now id _ =>
      use s r = match fst (fst (LRUCache.get connCache_options now id (connCache s))) with
                | Some _ => Some id
                | None => None
                end /\
      connCache (serve s r)
      = snd (fst (LRUCache.get connCache_options now id (connCache s)))
  end.
Proof.
  assert (forall now id,
            fst (connCache_get now id s)
            = Ok (fst (fst (LRUCache.get connCache_options now id (connCache s)))) /\
            connCache (snd (connCache_get now id s))
            = snd (fst (LRUCache.get connCache_options now id (connCache s)))) as Hget.
  { intros now id. rewrite connCache_get_run. split; reflexivity. }
  destruct r as [now id config|now id|now id q|now id q]; cbn [serve use].
  - unfold connect_tool, bind, lift.
    destruct (createManagerFromConfig config) as [m|e]; [|left; split; reflexivity].
    pose proof (zoom_connCache (connect m) s) as Hz.
    destruct (zoom (connect m) s) as [[m'|e] s1]; cbn [snd] in Hz.
    + right. exists m'. rewrite connCache_set_run. cbn [fst snd connCache].
      rewrite Hz. split; reflexivity.
    + left. cbn [fst snd]. split; [reflexivity|exact Hz].
  - destruct (Hget now id) as [Hfst Hsnd]. rewrite Hfst. split.
    + destruct (fst (fst (LRUCache.get _ _ _ _))); reflexivity.
    + unfold inspect_database, bind.
      destruct (connCache_get now id s) as [[[m|]|e] s'];
        cbn [fst snd] in *; [rewrite zoom_connCache| |]; exact Hsnd.
  - destruct (Hget now id) as [Hfst Hsnd]. rewrite Hfst. split.
    + destruct (fst (fst (LRUCache.get _ _ _ _))); reflexivity.
    + unfold execute_query, bind.
      destruct (connCache_get now id s) as [[[m|]|e] s'];
        cbn [fst snd] in *; [rewrite zoom_connCache| |]; exact Hsnd.
  - destruct (Hget now id) as [Hfst Hsnd]. rewrite Hfst. split.
    + destruct (fst (fst (LRUCache.get _ _ _ _))); reflexivity.
    + unfold explain_query, bind, ret.
      destruct (connCache_get now id s) as [[[m|]|e] s'];
        cbn [fst snd] in *; [|exact Hsnd..].
      pose proof (zoom_connCache (execute m {| sql := explainQuery q;
                                               params := ex_params q |}) s') as Hz.
      destruct (zoom _ s') as [[res|e] s'']; cbn [snd] in *; rewrite Hz; exact Hsnd.
Qed.

Lemma track_tracked (sh : Server * list (option string)) (r : request) :
  tracked (snd sh) (connCache (fst sh)) ->
  tracked (snd (track sh r)) (connCache (fst (track sh r))).
Proof.
  destruct sh as [s h]. cbn [track fst snd]. intros Htr.
  pose proof (serve_registry s r) as Hr.
  destruct r as [now id config|now id|now id q|now id q].
  - destruct Hr as [[-> ->]|(v & -> & ->)];
      [apply tracked_pass, Htr|apply set_tracked, Htr].
  - destruct Hr as [-> ->]. apply get_tracked, Htr.
  - destruct Hr as [-> ->]. apply get_tracked, Htr.
  - destruct Hr as [-> ->]. apply get_tracked, Htr.
Qed.

Lemma fold_track (requests : list request) (sh : Server * list (option string)) :
  fst (fold_left track requests sh) = fold_left serve requests (fst sh).
Proof.
  revert sh. induction requests as [|r requests IH]; intros sh; [reflexivity|].
  cbn [fold_left]. rewrite IH. reflexivity.
Qed.

(** Whatever requests the server has handled, the entries of its registry
    are in the order of their last use, the latest first. *)
Lemma history_tracked (requests : list request) :
  tracked (history requests) (connCache (serve_all requests)).
Proof.
  unfold history, serve_all.
  change start with (fst (start, @nil (option string))) at 2.
  rewrite <- fold_track.
  assert (forall sh, tracked (snd sh) (connCache (fst sh)) ->
            tracked (snd (fold_left track requests sh))
                    (connCache (fst (fold_left track requests sh)))) as Hall.
  { induction requests as [|r requests IH]; intros sh Hsh; [exact Hsh|].
    cbn [fold_left]. apply IH, track_tracked, Hsh. }
  apply Hall. split; [exact I|constructor].
Qed.

End tracking.

(** ** Capacity *)

(** C4: whatever requests the server has handled, its registry holds at
    most 100 entries.  When it holds 100 and a new key is set, exactly one
    entry leaves, the least recently used one: when the registry is the one
    the handled requests have left, the entry that leaves has been used, by
    the [connect] that registered it or by a lookup that found it, and more
    requests ago than every entry that stays.  Its value alone is handed to
    the disposal hook, which calls [end] once on the handle of the evicted
    adapter, if it has one; a failure of that close is written to the console
    and the insertion, and the [connect] tool that makes it, return normally. *)
Theorem registry_capacity `{Driver} (requests : list request) (now : Z) (k : string)
    (v : AnyDatabaseManager) (s : Server) :
  length (connCache s) = 100%nat ->
  LRUCache.find k (connCache s) = None ->
  (length (connCache (serve_all requests)) <= 100)%nat /\
  exists rest victim,
    let entry := {| LRUCache.key := k; LRUCache.val := v; LRUCache.start := now |} in
    let after l := {| connCache := entry :: rest;
                      log := l ++ disconnect_events (LRUCache.val victim) |} in
    connCache s = rest ++ [victim] /\
    LRUCache.lru (connCache s) = Some victim /\
    LRUCache.set connCache_options now k v (connCache s)
    = (entry :: rest, [LRUCache.val victim]) /\
    connCache_set now k v s = (Ok tt, after (log s)) /\
    length (connCache (after (log s))) = 100%nat /\
    closes (disconnect_events (LRUCache.val victim))
    = option_list (any_conn (LRUCache.val victim)) /\
    (forall h err,
       any_conn (LRUCache.val victim) = Some h -> conn_end h = Throw err ->
       disconnect_events (LRUCache.val victim)
       = [ConnEnd h; ConsoleError "Error disconnecting from MySQL:" err]) /\
    (forall config m l1,
       createManagerFromConfig config = Ok m ->
       connect m (log s) = (Ok v, l1) ->
       connect_tool now k config s = (Ok k, after l1)) /\
    (connCache s = connCache (serve_all requests) ->
     In (Some (LRUCache.key victim)) (history requests) /\
     forall e, In e rest ->
               (idle (history requests) (LRUCache.key e)
                < idle (history requests) (LRUCache.key victim))%nat).
Proof.
  intros Hlen Hfind. split; [apply serve_all_bounded|].
  destruct (set_at_capacity connCache_options now k v (connCache s))
    as (rest & victim & Hitems & Hlru & Hset);
    [cbn; lia | exact Hlen | exact Hfind |].
  exists rest, victim. cbv zeta.
  split; [exact Hitems|]. split; [exact Hlru|]. split; [exact Hset|].
  assert (forall l, connCache_set now k v {| connCache := connCache s; log := l |}
            = (Ok tt,
               {| connCache := {| LRUCache.key := k; LRUCache.val := v;
                                  LRUCache.start := now |} :: rest;
                  log := l ++ disconnect_events (LRUCache.val victim) |})) as Hrun.
  { intros l. rewrite connCache_set_run. cbn [connCache log]. rewrite Hset.
    cbn. rewrite app_nil_r. reflexivity. }
  split; [destruct s as [items l]; apply Hrun|]. split.
  { cbn [connCache length]. rewrite Hitems, length_app in Hlen. cbn in Hlen. lia. }
  split.
  { unfold disconnect_events, close_events.
    destruct (any_conn (LRUCache.val victim)) as [h|]; [|reflexivity].
    destruct (conn_end h) as [[]|e]; reflexivity. }
  split.
  { intros h err Hh Herr. unfold disconnect_events, close_events.
    rewrite Hh, Herr. reflexivity. }
  split.
  { intros config m l1 Hm Hconn.
    unfold connect_tool, bind, lift, zoom. rewrite Hm, Hconn, Hrun. reflexivity. }
  intros Hreached. pose proof (history_tracked requests) as [Hrec Hused].
  rewrite <- Hreached, Hitems in Hrec, Hused. split.
  - apply Forall_app in Hused as [_ Hlast].
    apply Forall_cons in Hlast as [Hlast _]. exact Hlast.
  - exact (recent_last _ _ _ Hrec).
Qed.

(** ** Time-to-live *)


(** ** The factory and the configuration schema *)

Lemma eq_str_spec (v : value) (s : string) : eq_str v s = true <-> v = VStr s.
Proof.
  destruct v; cbn; try (split; [discriminate|intros [=]]).
  rewrite String.eqb_eq. split; [intros ->; reflexivity|intros [= ->]; reflexivity].
Qed.

Lemma type_schema_run (v : value) :
  z.union [z.literal "postgres"; z.literal "mysql"] v
  = if known_type v then Some v else None.
Proof.
  unfold known_type. cbn. unfold z.literal.
  destruct (eq_str v "postgres"); [reflexivity|].
  destruct (eq_str v "mysql"); reflexivity.
Qed.

Lemma host_schema_run (v : value) :
  z.default_ z.string_ (VStr "localhost") v
  = if host_ok v
    then Some (host_default v)
    else None.
Proof. destruct v; reflexivity. Qed.

Lemma port_schema_run (v : value) :
  z.positive (z.int z.number_) v = if positive_integer v then Some v else None.
Proof.
  destruct v as [| |b|[q| |neg]|s]; try reflexivity.
  unfold z.positive, z.int, z.number_, positive_integer.
  destruct (isInteger (Rat q)); [|reflexivity].
  destruct (Js.positive (Rat q)); reflexivity.
Qed.

Lemma string_schema_run (v : value) :
  z.string_ v = if is_string v then Some v else None.
Proof. destruct v; reflexivity. Qed.

Lemma parse_ConnectionConfigSchema (config : object) :
  z.parse ConnectionConfigSchema config
  = match issues_of config with
    | [] => Ok (parsed config)
    | issues => Throw (ZodError issues)
    end.
Proof.
  unfold z.parse, ConnectionConfigSchema, issues_of, parsed.
  cbn [z.object_fields].
  rewrite type_schema_run, host_schema_run, port_schema_run, !string_schema_run.
  destruct (known_type _), (host_ok _), (positive_integer _),
    (is_string (get config "database")), (is_string (get config "username")),
    (is_string (get config "password")); reflexivity.
Qed.

Lemma issues_of_well_formed (config : object) :
  issues_of config = [] <-> well_formed config = true.
Proof.
  unfold issues_of, well_formed.
  destruct (known_type _), (host_ok _), (positive_integer _),
    (is_string (get config "database")), (is_string (get config "username")),
    (is_string (get config "password")); cbn; split; congruence.
Qed.

Lemma parsed_type (config : object) : get (parsed config) "type" = get config "type".
Proof. unfold parsed, get at 1. rewrite lookup_insert_eq. reflexivity. Qed.

Lemma createManagerFromConfig_run (config : object) :
  createManagerFromConfig config
  = match issues_of config with
    | [] => Ok (constructed config)
    | issues => Throw (ZodError issues)
    end.
Proof.
  unfold createManagerFromConfig. rewrite parse_ConnectionConfigSchema.
  destruct (issues_of config) as [|k issues] eqn:Hissues; [|reflexivity].
  apply issues_of_well_formed in Hissues. unfold well_formed in Hissues.
  repeat (apply andb_prop in Hissues as [Hissues ?]).
  unfold MysqlDatabaseManager.new, PostgresqlDatabaseManager.new, constructed.
  rewrite parsed_type.
  destruct (eq_str (get config "type") "mysql") eqn:Hmy; cbn; [reflexivity|].
  unfold known_type in Hissues. rewrite Hmy, orb_false_r in Hissues.
  rewrite Hissues. reflexivity.
Qed.

Lemma missing_required (config : object) (k : string) :
  In k required -> config !! k = None -> well_formed config = false.
Proof.
  unfold required, well_formed, get. cbn [In].
  intros [<-|[<-|[<-|[<-|[<-|[]]]]]] ->; cbn;
    rewrite ?andb_false_r; reflexivity.
Qed.

Lemma bad_port (config : object) (n : number) :
  get config "port" = VNum n ->
  Js.positive n = false \/ isInteger n = false ->
  well_formed config = false.
Proof.
  unfold well_formed. intros -> Hn. cbn [positive_integer].
  destruct Hn as [-> | ->]; rewrite ?andb_false_r; cbn; rewrite ?andb_false_r;
    reflexivity.
Qed.

(** C8, against the claim: a configuration whose required strings are all
    empty passes the schema, and the factory constructs the MySQL adapter
    for it. *)
Lemma createManagerFromConfig_accepts_empty_strings :
  get blank_config "database" = VStr "" /\
  get blank_config "username" = VStr "" /\
  get blank_config "password" = VStr "" /\
  createManagerFromConfig blank_config
  = Ok (Mysql {| MysqlDatabaseManager.config := blank_config;
                 MysqlDatabaseManager.conn := None |}).
Proof. repeat split; vm_compute; reflexivity. Qed.

(** C8, amended: the factory fails with a [ZodError], and constructs
    nothing, exactly for the configurations that are not well formed: the
    engine is not one of the two, the host is there and is not a string, the
    port is not a positive integer, or the database, the user or the password
    is not a string; so it fails when a key without a default is missing and
    when the port is not positive or not an integer.  A well-formed
    configuration, empty strings included, gives a disconnected adapter. *)
Theorem createManagerFromConfig_validation (config : object) :
  let fails := exists issues, issues <> [] /\
                 createManagerFromConfig config = Throw (ZodError issues) in
  ((exists k, In k required /\ config !! k = None) -> fails) /\
  (forall n, get config "port" = VNum n ->
             Js.positive n = false \/ isInteger n = false -> fails) /\
  (well_formed config = false <-> fails) /\
  (well_formed config = true ->
     createManagerFromConfig config = Ok (constructed config) /\
     any_conn (constructed config) = None).
Proof.
  intros fails.
  assert (well_formed config = false -> fails) as Hfails.
  { intros Hwf. unfold fails. rewrite createManagerFromConfig_run.
    destruct (issues_of config) as [|k issues] eqn:Hissues.
    - apply issues_of_well_formed in Hissues. congruence.
    - exists (k :: issues). split; [discriminate|reflexivity]. }
  assert (well_formed config = true ->
          createManagerFromConfig config = Ok (constructed config)) as Hok.
  { intros Hwf. rewrite createManagerFromConfig_run.
    apply issues_of_well_formed in Hwf. rewrite Hwf. reflexivity. }
  split; [|split; [|split; [split|]]].
  - intros (k & Hk & Hnone). exact (Hfails (missing_required config k Hk Hnone)).
  - intros n Hport Hn. exact (Hfails (bad_port config n Hport Hn)).
  - exact Hfails.
  - intros (issues & _ & Hthrow).
    destruct (well_formed config) eqn:Hwf; [|reflexivity].
    rewrite (Hok eq_refl) in Hthrow. discriminate.
  - intros Hwf. split; [exact (Hok Hwf)|].
    unfold constructed. destruct (eq_str _ _); reflexivity.
Qed.

(** C9: for a configuration whose engine is neither [mysql] nor [postgres],
    the factory fails with a [ZodError] that reports the key [type]; the
    [connect] tool given such a configuration throws it and leaves the server
    as it was: no adapter in the registry, no call to a driver. *)
Theorem unsupported_engine_rejected `{Driver} (config : object) (now : Z) (id : string)
    (s : Server) :
  get config "type" <> VStr "mysql" ->
  get config "type" <> VStr "postgres" ->
  exists issues,
    In "type" issues /\
    createManagerFromConfig config = Throw (ZodError issues) /\
    connect_tool now id config s = (Throw (ZodError issues), s).
Proof.
  intros Hmy Hpg.
  assert (known_type (get config "type") = false) as Hknown.
  { unfold known_type. apply orb_false_iff. split.
    - destruct (eq_str _ "postgres") eqn:E; [|reflexivity].
      apply eq_str_spec in E. contradiction.
    - destruct (eq_str _ "mysql") eqn:E; [|reflexivity].
      apply eq_str_spec in E. contradiction. }
  assert (exists rest, issues_of config = "type" :: rest) as [rest Hissues].
  { unfold issues_of. rewrite Hknown. eexists. reflexivity. }
  exists ("type" :: rest).
  assert (createManagerFromConfig config = Throw (ZodError ("type" :: rest))) as Hthrow.
  { rewrite createManagerFromConfig_run, Hissues. reflexivity. }
  split; [left; reflexivity|]. split; [exact Hthrow|].
  unfold connect_tool, bind, lift. rewrite Hthrow. reflexivity.
Qed.

(** ** Introspection *)

Lemma mapM_results {S A B} (f : A -> M S B) (xs : list A) (ys : list B) (s s' : S) :
  mapM f xs s = (Ok ys, s') ->
  Forall (fun y => exists x s1 s2, In x xs /\ f x s1 = (Ok y, s2)) ys.
Proof.
  revert ys s. induction xs as [|x xs IH]; intros ys s; cbn [mapM].
  - unfold ret. intros [= <- _]. constructor.
  - unfold bind at 1. destruct (f x s) as [[y|e] s1] eqn:Hx; [|discriminate].
    unfold bind at 1. destruct (mapM f xs s1) as [[ys'|e] s2] eqn:Hxs; [|discriminate].
    unfold ret. intros [= <- <-]. constructor.
    + exists x, s, s1. split; [left; reflexivity|exact Hx].
    + eapply Forall_impl; [exact (IH _ _ Hxs)|].
      intros y' (x' & s3 & s4 & Hin & Hrun). exists x', s3, s4.
      split; [right; exact Hin|exact Hrun].
Qed.

(** The Postgres adapter names a table by the key [TABLE_NAME] of its
    row. *)
Lemma pg_introspect_table_name `{Driver} (c : Handle) (row : object)
    (t : TableSchema) (l l' : Log) :
  PostgresqlDatabaseManager.introspect_table c row l = (Ok t, l') ->
  table_name t = get row "TABLE_NAME".
Proof.
  unfold PostgresqlDatabaseManager.introspect_table,
    PostgresqlDatabaseManager.conn_query, bind, emit, lift, ret.
  destruct (pg_query c pg_columns_sql _) as [r1|e]; [|discriminate].
  destruct (pg_query c pg_foreign_keys_sql _) as [r2|e]; [|discriminate].
  intros [= <- _]. reflexivity.
Qed.

(** The rows PostgreSQL lists the tables with have no such key. *)
Lemma pg_tables_keys (cat : InformationSchema.catalog) (row : object) :
  In row (InformationSchema.pg_tables cat) -> get row "TABLE_NAME" = VUndefined.
Proof.
  unfold InformationSchema.pg_tables. intros Hin.
  apply in_map_iff in Hin as (t & <- & _). reflexivity.
Qed.

(** Whatever the catalog, every table the Postgres adapter describes is
    named [undefined]. *)
Lemma pg_introspect_names (cat : InformationSchema.catalog)
    (this : PostgresqlDatabaseManager.t) (l l' : Log) (layout : DatabaseLayout) :
  @PostgresqlDatabaseManager.introspect (InformationSchema.engine cat) this l
  = (Ok layout, l') ->
  Forall (fun t => table_name t = VUndefined) (tables layout).
Proof.
  unfold PostgresqlDatabaseManager.introspect.
  destruct (PostgresqlDatabaseManager.conn this) as [c|]; [|discriminate].
  unfold PostgresqlDatabaseManager.conn_query, bind at 1 2 3 4, emit, lift.
  cbn [pg_query InformationSchema.engine].
  change (InformationSchema.pg_engine cat c pg_database_sql [])
    with (Ok {| pg_rows := [InformationSchema.row [("db_name", VStr (InformationSchema.database cat))]];
                pg_fields := ["db_name"] |} : result PgResult).
  change (InformationSchema.pg_engine cat c pg_tables_sql [])
    with (Ok {| pg_rows := InformationSchema.pg_tables cat;
                pg_fields := ["table_name"] |} : result PgResult).
  cbn [pg_rows]. unfold bind, ret.
  destruct (mapM _ _ _) as [[ts|e] l2] eqn:Hmap; [|discriminate].
  intros [= <- _]. cbn [tables].
  apply mapM_results in Hmap.
  eapply Forall_impl; [exact Hmap|].
  intros t (row & l3 & l4 & Hin & Hrow).
  rewrite (pg_introspect_table_name _ _ _ _ _ Hrow).
  exact (pg_tables_keys cat row Hin).
Qed.

(** C1: on the database of the scenario the MySQL adapter describes
    [orders] as declared: the key column is the one primary key, the other
    column is not, and the one foreign key is the declared one.  The Postgres
    adapter does not: it reads the name of each table from the key
    [TABLE_NAME], the rows it is given are keyed [table_name], and every
    table comes out named [undefined], without columns or foreign keys
    (for every catalog, by [pg_introspect_names]); given a row with the key
    it reads, it describes [orders] as declared. *)
Theorem introspect_orders_scenario :
  fst (@MysqlDatabaseManager.introspect
         (InformationSchema.engine InformationSchema.mysql_shop) mysql_shop_adapter [])
  = Ok {| layout_name := VStr "shop";
          tables := [ {| table_name := VStr "customers";
                         columns := [ {| col_name := VStr "id"; col_type := VStr "int";
                                         nullable := VBool false; default_value := VNull;
                                         primary_key := VBool true |} ];
                         foreign_keys := [] |};
                      InformationSchema.orders_schema "int" "orders_ibfk_1" ] |} /\
  fst (@PostgresqlDatabaseManager.introspect
         (InformationSchema.engine InformationSchema.pg_shop) pg_shop_adapter [])
  = Ok {| layout_name := VStr "shop"; tables := [nameless_table; nameless_table] |} /\
  fst (@PostgresqlDatabaseManager.introspect_table
         (InformationSchema.engine InformationSchema.pg_shop) 1%nat
         (InformationSchema.row [("TABLE_NAME", VStr "orders")]) [])
  = Ok (InformationSchema.orders_schema "integer" "orders_customer_id_fkey").
Proof.
  split; [vm_compute; reflexivity|].
  split; vm_compute; reflexivity.
Qed.

(** * Instances *)

Lemma execute_rows_aligned_witness :
  @execute sample_driver _ _ sample_mysql select_all []
  = (Ok {| res_columns := ["id"; "name"];
           res_rows := [[VInt 1; VNull]; [VInt 2; VNull]] |},
     [MysqlExecute 1%nat "SELECT id, name FROM people" []]) /\
  Forall (fun cells => length cells = 2%nat) [[VInt 1; VNull]; [VInt 2; VNull]].
Proof.
  split; [reflexivity|].
  destruct (@execute_rows_aligned sample_driver sample_mysql select_all []
              [MysqlExecute 1%nat "SELECT id, name FROM people" []]
              {| res_columns := ["id"; "name"];
                 res_rows := [[VInt 1; VNull]; [VInt 2; VNull]] |} eq_refl)
    as (native & _ & _ & Hlen & _).
  exact Hlen.
Defined.

Lemma not_connected_guard_witness :
  createManagerFromConfig (InformationSchema.shop_config "mysql" 3306)
  = Ok (constructed (InformationSchema.shop_config "mysql" 3306)) /\
  @execute sample_driver _ _ (constructed (InformationSchema.shop_config "mysql" 3306))
    select_all []
  = (Throw (Error "Not connected"), []).
Proof.
  split; [vm_compute; reflexivity|].
  apply (@not_connected_guard sample_driver
           (constructed (InformationSchema.shop_config "mysql" 3306)) select_all []).
  right. exists (InformationSchema.shop_config "mysql" 3306). vm_compute; reflexivity.
Defined.

Lemma sample_live_my : live 1000 "my" sample_server
  {| LRUCache.key := "my"; LRUCache.val := sample_mysql; LRUCache.start := 0 |}.
Proof. split; reflexivity. Defined.

Lemma sample_live_pg : live 2000 "pg" sample_server
  {| LRUCache.key := "pg"; LRUCache.val := sample_pg; LRUCache.start := 0 |}.
Proof. split; reflexivity. Defined.

Lemma explain_passthrough_witness :
  log (snd (@explain_query sample_driver 1000 "my" select_one sample_server))
  = [MysqlExecute 1%nat "EXPLAIN SELECT 1" []].
Proof.
  exact (proj1 (proj2 (proj2
           (@explain_passthrough sample_driver 1000 "my" select_one sample_server _
              sample_live_my))) 1%nat eq_refl).
Defined.

Lemma explain_rewrite_engine_independent_witness :
  exists statement : string,
    statement = "EXPLAIN SELECT 1" /\
    log (snd (@explain_query sample_driver 1000 "my" select_one sample_server))
    = [MysqlExecute 1%nat statement []] /\
    log (snd (@explain_query sample_driver 2000 "pg" select_one sample_server))
    = [PgQuery 2%nat statement []].
Proof.
  exact (@explain_rewrite_engine_independent sample_driver 1000 2000 "my" "pg" select_one
           sample_server sample_server _ _ _ _ 1%nat 2%nat
           sample_live_my eq_refl eq_refl sample_live_pg eq_refl eq_refl).
Defined.

Lemma registry_capacity_witness :
  length (connCache (@serve_all sample_driver hundred_connects)) = 100%nat /\
  LRUCache.find "new" (connCache (@serve_all sample_driver hundred_connects)) = None /\
  (length (connCache (@serve_all sample_driver hundred_connects)) <= 100)%nat /\
  (idle (@history sample_driver hundred_connects) (session_name 99)
   < idle (@history sample_driver hundred_connects) (session_name 0))%nat /\
  fst (@connCache_set sample_driver 500 "new" sample_pg
         (@serve_all sample_driver hundred_connects)) = Ok tt /\
  LRUCache.find (session_name 0)
    (connCache (snd (@connCache_set sample_driver 500 "new" sample_pg
                       (@serve_all sample_driver hundred_connects)))) = None /\
  closes (log (snd (@connCache_set sample_driver 500 "new" sample_pg
                      (@serve_all sample_driver hundred_connects)))) = [1%nat].
Proof.
  assert (length (connCache (@serve_all sample_driver hundred_connects)) = 100%nat)
    as Hlen by (vm_compute; reflexivity).
  assert (LRUCache.find "new" (connCache (@serve_all sample_driver hundred_connects))
          = None) as Hfind by (vm_compute; reflexivity).
  destruct (@registry_capacity sample_driver hundred_connects 500 "new" sample_pg
              (@serve_all sample_driver hundred_connects) Hlen Hfind)
    as (Hbound & rest & victim & _ & Hlru & Hset & Hrun & _ & _ & _ & _ & Hused).
  destruct (Hused eq_refl) as [_ Hidle].
  assert (victim = {| LRUCache.key := session_name 0;
                      LRUCache.val := with_handle 1%nat;
                      LRUCache.start := 0 |}) as Hvictim.
  { vm_compute in Hlru. injection Hlru as <-. vm_compute. reflexivity. }
  assert (rest = tl (fst (LRUCache.set connCache_options 500 "new" sample_pg
                            (connCache (@serve_all sample_driver hundred_connects)))))
    as Hrest by (rewrite Hset; reflexivity).
  split; [exact Hlen|]. split; [exact Hfind|]. split; [exact Hbound|]. split.
  { specialize (Hidle {| LRUCache.key := session_name 99;
                         LRUCache.val := with_handle 1%nat;
                         LRUCache.start := 99 |}).
    rewrite Hvictim in Hidle. apply Hidle.
    rewrite Hrest. vm_compute. left. reflexivity. }
  rewrite Hrun. cbn [fst snd connCache log]. split; [reflexivity|]. split.
  - rewrite Hrest. vm_compute. reflexivity.
  - rewrite Hvictim. vm_compute. reflexivity.
Defined.


Lemma createManagerFromConfig_validation_witness :
  (exists issues, issues <> [] /\
     createManagerFromConfig (delete "port" blank_config) = Throw (ZodError issues)) /\
  createManagerFromConfig blank_config = Ok (constructed blank_config).
Proof.
  split.
  - apply (proj1 (createManagerFromConfig_validation (delete "port" blank_config))).
    exists "port". split; [vm_compute; tauto|reflexivity].
  - apply (proj2 (proj2 (proj2 (createManagerFromConfig_validation blank_config)))).
    reflexivity.
Defined.

Lemma unsupported_engine_rejected_witness :
  exists issues,
    In "type" issues /\
    createManagerFromConfig oracle_config = Throw (ZodError issues) /\
    @connect_tool sample_driver 0 "id" oracle_config sample_server
    = (Throw (ZodError issues), sample_server).
Proof.
  apply (@unsupported_engine_rejected sample_driver oracle_config 0 "id" sample_server);
    vm_compute; discriminate.
Defined.

(** * Further properties *)

(** ** Statements through an adapter *)

(** X1: when the driver rejects the statement, [execute] of either adapter
    throws the driver's error as it is, after the one call that was
    rejected. *)
Theorem execute_propagates_rejection `{Driver} (m : AnyDatabaseManager) (h : Handle)
    (q : SqlQuery) (e : exn) (l : Log) :
  any_conn m = Some h ->
  rejected m h q e ->
  execute m q l
  = (Throw e, l ++ [driver_call m h (sql q) (params_or_empty (params q))]).
Proof.
  destruct m as [[cfg c]|[cfg c]]; cbn [any_conn rejected]; run;
    intros -> ->; reflexivity.
Qed.

(** X2: a statement without a result set, which mysql2 answers with a
    header and no fields, makes [execute] of the MySQL adapter throw a
    [TypeError] after the statement has been sent; the Postgres adapter,
    answered with rows and no fields, returns no columns and one empty row
    per row. *)
Theorem execute_without_result_set `{Driver} (a : MysqlDatabaseManager.t)
    (b : PostgresqlDatabaseManager.t) (h1 h2 : Handle) (q : SqlQuery)
    (rows : list object) (l : Log) :
  MysqlDatabaseManager.conn a = Some h1 ->
  PostgresqlDatabaseManager.conn b = Some h2 ->
  mysql_execute h1 (sql q) (params_or_empty (params q)) = Ok MyHeader ->
  pg_query h2 (sql q) (params_or_empty (params q))
  = Ok {| pg_rows := rows; pg_fields := [] |} ->
  (exists msg,
     execute (Mysql a) q l
     = (Throw (TypeError msg),
        l ++ [MysqlExecute h1 (sql q) (params_or_empty (params q))])) /\
  execute (Postgres b) q l
  = (Ok {| res_columns := []; res_rows := map (fun _ => []) rows |},
     l ++ [PgQuery h2 (sql q) (params_or_empty (params q))]).
Proof.
  intros Ha Hb Hmy Hpg. split.
  - eexists. run. rewrite Ha, Hmy. reflexivity.
  - run. rewrite Hb, Hpg. reflexivity.
Qed.

(** ** Connecting *)

Lemma connect_run `{Driver} (m : AnyDatabaseManager) (l : Log) :
  connect m l
  = (match driver_connect m with
     | Ok h => Ok (with_conn m h)
     | Throw e => Throw e
     end, l ++ [connect_event m]).
Proof.
  destruct m as [a|b]; cbn [connect AnyConnection MysqlConnection PostgresqlConnection];
    unfold MysqlDatabaseManager.connect, PostgresqlDatabaseManager.connect,
      bind, emit, lift, ret, driver_connect, connect_event, connect_options;
    cbn [any_config fallback_port with_conn].
  - destruct (mysql_createConnection _); reflexivity.
  - destruct (pg_connect _); reflexivity.
Qed.

Lemma any_conn_with_conn (m : AnyDatabaseManager) (h : Handle) :
  any_conn (with_conn m h) = Some h.
Proof. destruct m; reflexivity. Qed.

Lemma closes_app (l1 l2 : Log) : closes (l1 ++ l2) = closes l1 ++ closes l2.
Proof. unfold closes. apply omap_app. Qed.

Lemma closes_close_events `{Driver} (h : Handle) : closes (close_events h) = [h].
Proof. unfold close_events. destruct (conn_end h) as [[]|e]; reflexivity. Qed.

Lemma closes_connect_event (m : AnyDatabaseManager) : closes [connect_event m] = [].
Proof. destruct m; reflexivity. Qed.

(** X3: a [connect] that returns leaves the adapter with the handle the
    driver gave; [disconnect] then calls [end] on that handle and no other,
    clears it, and [execute] on the adapter is back to [Not connected]. *)
Theorem connect_then_disconnect `{Driver} (m m1 : AnyDatabaseManager) (q : SqlQuery)
    (l l1 : Log) :
  connect m l = (Ok m1, l1) ->
  exists h m2,
    driver_connect m = Ok h /\
    any_conn m1 = Some h /\
    l1 = l ++ [connect_event m] /\
    disconnect m1 l1 = (Ok m2, l1 ++ close_events h) /\
    closes (close_events h) = [h] /\
    any_conn m2 = None /\
    forall l2, execute m2 q l2 = (Throw (Error "Not connected"), l2).
Proof.
  rewrite connect_run.
  destruct (driver_connect m) as [h|e] eqn:Hd; [|discriminate].
  intros [= <- <-]. exists h, (disconnected (with_conn m h)).
  split; [reflexivity|]. split; [apply any_conn_with_conn|]. split; [reflexivity|].
  split.
  { rewrite disconnect_run. unfold disconnect_events.
    rewrite any_conn_with_conn. reflexivity. }
  split; [apply closes_close_events|].
  split; [destruct m; reflexivity|].
  intros l2. destruct m; reflexivity.
Qed.

(** X4: [connect] never closes a connection.  Whether or not the adapter
    already holds a handle, a [connect] that returns leaves it with the handle
    the driver has just given, and [end] has been called on no handle: a
    handle the adapter held before is dropped open. *)
Theorem connect_never_closes `{Driver} (m m1 : AnyDatabaseManager) (l l1 : Log) :
  connect m l = (Ok m1, l1) ->
  exists h, driver_connect m = Ok h /\ any_conn m1 = Some h /\ closes l1 = closes l.
Proof.
  rewrite connect_run.
  destruct (driver_connect m) as [h|e] eqn:Hd; [|discriminate].
  intros [= <- <-]. exists h. split; [reflexivity|].
  split; [apply any_conn_with_conn|].
  rewrite closes_app, closes_connect_event. apply app_nil_r.
Qed.




(** ** Introspection over any engine *)

Lemma mapM_walk {A B} (f : A -> IO B) (P : A -> B -> Prop) (k : nat) :
  (forall x y l l', f x l = (Ok y, l') -> P x y /\ grows k l l') ->
  forall xs ys l l',
    mapM f xs l = (Ok ys, l') ->
    Forall2 P xs ys /\ grows (k * length xs) l l'.
Proof.
  intros Hstep. induction xs as [|x xs IH]; intros ys l l'; cbn [mapM].
  - unfold ret. intros [= <- <-]. split; [constructor|].
    unfold grows. cbn [length]. split; [lia|reflexivity].
  - unfold bind at 1. destruct (f x l) as [[y|e] l1] eqn:Hx; [|discriminate].
    unfold bind at 1. destruct (mapM f xs l1) as [[ys'|e] l2] eqn:Hxs; [|discriminate].
    unfold ret. intros [= <- <-].
    destruct (Hstep x y l l1 Hx) as (HP & Hlen1 & Hcl1).
    destruct (IH ys' l1 l2 Hxs) as (HF & Hlen2 & Hcl2).
    split; [constructor; assumption|].
    unfold grows. cbn [length]. split; [lia|congruence].
Qed.

Lemma mapM_throws {S A B} (f : A -> M S B) (x : A) (xs : list A) :
  In x xs ->
  (forall s, exists e s', f x s = (Throw e, s')) ->
  forall s, exists e s', mapM f xs s = (Throw e, s').
Proof.
  intros Hin Hx. induction xs as [|x0 xs IH]; [destruct Hin|].
  intros s. cbn [mapM]. unfold bind at 1.
  destruct (f x0 s) as [[y|e] s1] eqn:Hx0; [|exists e, s1; reflexivity].
  destruct Hin as [->|Hin].
  - destruct (Hx s) as (e & s' & Hthrow). congruence.
  - destruct (IH Hin s1) as (e & s' & Hthrow).
    unfold bind at 1. rewrite Hthrow. exists e, s'. reflexivity.
Qed.

Lemma grows_app (l : Log) (es : Log) : closes es = [] -> grows (length es) l (l ++ es).
Proof.
  intros Hes. unfold grows. rewrite length_app, closes_app, Hes, app_nil_r.
  split; reflexivity.
Qed.

Lemma mysql_introspect_table_step `{Driver} (this : MysqlDatabaseManager.t) (c : Handle)
    (row : object) (t : TableSchema) (l l' : Log) :
  MysqlDatabaseManager.introspect_table this c row l = (Ok t, l') ->
  table_name t = get row "table_name" /\ grows 2 l l'.
Proof.
  unfold MysqlDatabaseManager.introspect_table, MysqlDatabaseManager.conn_execute,
    MysqlDatabaseManager.rows_of, bind, emit, lift, ret, throw.
  destruct (mysql_execute c mysql_columns_sql _) as [[rows1 f1|]|e]; try discriminate.
  destruct (mysql_execute c mysql_foreign_keys_sql _) as [[rows2 f2|]|e]; try discriminate.
  intros [= <- <-]. split; [reflexivity|].
  rewrite <- app_assoc. apply (grows_app l [_; _]). reflexivity.
Qed.

Lemma pg_introspect_table_step `{Driver} (c : Handle) (row : object) (t : TableSchema)
    (l l' : Log) :
  PostgresqlDatabaseManager.introspect_table c row l = (Ok t, l') ->
  table_name t = get row "TABLE_NAME" /\ grows 2 l l'.
Proof.
  unfold PostgresqlDatabaseManager.introspect_table,
    PostgresqlDatabaseManager.conn_query, bind, emit, lift, ret.
  destruct (pg_query c pg_columns_sql _) as [r1|e]; [|discriminate].
  destruct (pg_query c pg_foreign_keys_sql _) as [r2|e]; [|discriminate].
  intros [= <- <-]. split; [reflexivity|].
  rewrite <- app_assoc. apply (grows_app l [_; _]). reflexivity.
Qed.

Lemma Forall2_names {A} (f : A -> value) (rows : list A) (ts : list TableSchema) :
  Forall2 (fun row t => table_name t = f row) rows ts ->
  map table_name ts = map f rows.
Proof. induction 1 as [|row t rows ts Hn _ IH]; cbn; [reflexivity|]. congruence. Qed.

(** X6: an [introspect] that returns describes the tables the engine
    listed, one description per listed row and in the order of the listing,
    each named by the value the adapter reads from its row; the driver has
    received two statements and two more for every table, and no handle has
    been closed. *)
Theorem introspect_tables_in_order `{Driver} (m : AnyDatabaseManager)
    (layout : DatabaseLayout) (l l' : Log) :
  introspect m l = (Ok layout, l') ->
  exists h rows,
    any_conn m = Some h /\
    listing m h = Some rows /\
    map table_name (tables layout) = map (fun row => get row (name_key m)) rows /\
    length l' = (length l + 2 + 2 * length rows)%nat /\
    closes l' = closes l.
Proof.
  destruct m as [[cfg c]|[cfg c]]; run; cbn [any_conn listing name_key
    MysqlDatabaseManager.config].
  - destruct c as [c|]; [|discriminate].
    destruct (mysql_execute c mysql_database_sql []) as [r0|e]; [|discriminate].
    unfold MysqlDatabaseManager.rows_of.
    destruct (mysql_execute c mysql_tables_sql _) as [[rows f|]|e] eqn:Ht;
      try discriminate.
    unfold ret at 1.
    destruct (mapM _ rows _) as [[ts|e] l2] eqn:Hmap; [|discriminate].
    intros [= <- <-]. exists c, rows. split; [reflexivity|].
    split; [cbn; rewrite Ht; reflexivity|].
    destruct (mapM_walk _ (fun row t => table_name t = get row "table_name") 2
                (mysql_introspect_table_step _ c) _ _ _ _ Hmap) as (Hnames & Hlen & Hcl).
    cbn [tables]. split; [exact (Forall2_names _ _ _ Hnames)|].
    rewrite !length_app in Hlen. cbn [length] in Hlen.
    rewrite !closes_app in Hcl. cbn in Hcl. rewrite !app_nil_r in Hcl.
    split; [lia|exact Hcl].
  - destruct c as [c|]; [|discriminate].
    destruct (pg_query c pg_database_sql []) as [r0|e]; [|discriminate].
    destruct (pg_query c pg_tables_sql []) as [r1|e] eqn:Ht; [|discriminate].
    destruct (mapM _ (pg_rows r1) _) as [[ts|e] l2] eqn:Hmap; [|discriminate].
    intros [= <- <-]. exists c, (pg_rows r1). split; [reflexivity|].
    split; [cbn; rewrite Ht; reflexivity|].
    destruct (mapM_walk _ (fun row t => table_name t = get row "TABLE_NAME") 2
                (pg_introspect_table_step c) _ _ _ _ Hmap) as (Hnames & Hlen & Hcl).
    cbn [tables]. split; [exact (Forall2_names _ _ _ Hnames)|].
    rewrite !length_app in Hlen. cbn [length] in Hlen.
    rewrite !closes_app in Hcl. cbn in Hcl. rewrite !app_nil_r in Hcl.
    split; [lia|exact Hcl].
Qed.

(** X7: [introspect] gives a whole description or none: when the driver
    rejects the statement that asks for the columns of any one listed table,
    [introspect] throws. *)
Theorem introspect_all_or_nothing `{Driver} (m : AnyDatabaseManager) (h : Handle)
    (rows : list object) (row : object) (l : Log) :
  any_conn m = Some h ->
  listing m h = Some rows ->
  In row rows ->
  columns_rejected m h row ->
  exists e, fst (introspect m l) = Throw e.
Proof.
  destruct m as [[cfg c]|[cfg c]]; cbn [any_conn listing columns_rejected
    MysqlDatabaseManager.config MysqlDatabaseManager.conn
    PostgresqlDatabaseManager.conn]; intros -> Hlist Hin [e Hrej]; run.
  - destruct (mysql_execute h mysql_database_sql []) as [r0|e0];
      [|exists e0; reflexivity].
    unfold MysqlDatabaseManager.rows_of.
    destruct (mysql_execute h mysql_tables_sql _) as [[rows' f|]|e1]; try discriminate.
    injection Hlist as ->. unfold ret at 1.
    destruct (mapM_throws (MysqlDatabaseManager.introspect_table
                             {| MysqlDatabaseManager.config := cfg;
                                MysqlDatabaseManager.conn := Some h |} h) row rows Hin)
      with (s := (l ++ [MysqlExecute h mysql_database_sql []]) ++
                 [MysqlExecute h mysql_tables_sql [get cfg "database"]])
      as (e' & l' & Hthrow).
    + intros l0. exists e. eexists.
      unfold MysqlDatabaseManager.introspect_table, MysqlDatabaseManager.conn_execute,
        bind, emit, lift. cbn [MysqlDatabaseManager.config]. rewrite Hrej. reflexivity.
    + rewrite Hthrow. exists e'. reflexivity.
  - destruct (pg_query h pg_database_sql []) as [r0|e0]; [|exists e0; reflexivity].
    destruct (pg_query h pg_tables_sql []) as [r1|e1]; [|discriminate].
    injection Hlist as <-.
    destruct (mapM_throws (PostgresqlDatabaseManager.introspect_table h) row
                (pg_rows r1) Hin)
      with (s := (l ++ [PgQuery h pg_database_sql []]) ++ [PgQuery h pg_tables_sql []])
      as (e' & l' & Hthrow).
    + intros l0. exists e. eexists.
      unfold PostgresqlDatabaseManager.introspect_table,
        PostgresqlDatabaseManager.conn_query, bind, emit, lift.
      rewrite Hrej. reflexivity.
    + rewrite Hthrow. exists e'. reflexivity.
Qed.

(** ** Sessions *)

Section session_facts.
Context {V : Type}.
Implicit Types (items : list (LRUCache.entry V)) (e : LRUCache.entry V) (k : string).

Lemma find_None_keys items k :
  LRUCache.find k items = None <-> ~ In k (map LRUCache.key items).
Proof.
  unfold LRUCache.find. induction items as [|x items IH]; cbn; [tauto|].
  destruct (String.eqb (LRUCache.key x) k) eqn:Hk.
  - apply String.eqb_eq in Hk. split; [discriminate|]. intros Hn. destruct Hn. left. exact Hk.
  - apply String.eqb_neq in Hk. rewrite IH. tauto.
Qed.

Lemma find_skip items k e :
  LRUCache.key e <> k -> LRUCache.find k (e :: items) = LRUCache.find k items.
Proof.
  intros Hk. unfold LRUCache.find. cbn.
  apply String.eqb_neq in Hk. rewrite Hk. reflexivity.
Qed.

Lemma find_remove_other items k k' :
  k <> k' -> LRUCache.find k' (LRUCache.remove k items) = LRUCache.find k' items.
Proof.
  intros Hk. unfold LRUCache.find, LRUCache.remove.
  induction items as [|x items IH]; cbn; [reflexivity|].
  destruct (String.eqb (LRUCache.key x) k) eqn:Hx; cbn.
  - apply String.eqb_eq in Hx.
    destruct (String.eqb (LRUCache.key x) k') eqn:Hx'; [|exact IH].
    apply String.eqb_eq in Hx'. congruence.
  - destruct (String.eqb (LRUCache.key x) k'); [reflexivity|exact IH].
Qed.

Lemma keys_remove items k k' :
  In k' (map LRUCache.key (LRUCache.remove k items)) ->
  k' <> k /\ In k' (map LRUCache.key items).
Proof.
  unfold LRUCache.remove. rewrite !in_map_iff.
  intros (x & <- & Hin). apply filter_In in Hin as [Hin Hk].
  apply negb_true_iff, String.eqb_neq in Hk. split; [exact Hk|].
  exists x. split; [reflexivity|exact Hin].
Qed.

Lemma NoDup_keys_remove items k :
  List.NoDup (map LRUCache.key items) -> List.NoDup (map LRUCache.key (LRUCache.remove k items)).
Proof.
  unfold LRUCache.remove. induction items as [|x items IH]; cbn; [intros; apply List.NoDup_nil|].
  intros Hnd. apply List.NoDup_cons_iff in Hnd as [Hx Hnd].
  destruct (negb _); cbn; [|exact (IH Hnd)].
  apply List.NoDup_cons_iff. split; [|exact (IH Hnd)].
  intros Hin. apply (keys_remove items k) in Hin as [_ Hin]. exact (Hx Hin).
Qed.

Lemma find_after_set (opts : LRUCache.options) now k (v : V) items :
  LRUCache.find k (fst (LRUCache.set opts now k v items))
  = Some {| LRUCache.key := k; LRUCache.val := v; LRUCache.start := now |}.
Proof.
  unfold LRUCache.set.
  destruct (LRUCache.find k items); cbn [fst]; [apply find_head; reflexivity|].
  destruct (length items <? _)%nat; cbn [fst]; [apply find_head; reflexivity|].
  destruct (LRUCache.lru items); apply find_head; reflexivity.
Qed.

Lemma set_keeps_keys_distinct (opts : LRUCache.options) now k (v : V) items :
  List.NoDup (map LRUCache.key items) ->
  List.NoDup (map LRUCache.key (fst (LRUCache.set opts now k v items))).
Proof.
  intros Hnd. unfold LRUCache.set.
  destruct (LRUCache.find k items) as [old|] eqn:Hfind; cbn [fst map LRUCache.key].
  - apply List.NoDup_cons_iff. split; [|apply NoDup_keys_remove; exact Hnd].
    intros Hin. apply keys_remove in Hin as [Hk _]. congruence.
  - apply find_None_keys in Hfind.
    destruct (length items <? _)%nat; cbn [fst map LRUCache.key].
    + apply List.NoDup_cons_iff. split; assumption.
    + destruct (LRUCache.lru items) as [victim|] eqn:Hlru; cbn [fst map LRUCache.key].
      * apply lru_last in Hlru. rewrite Hlru in Hnd, Hfind.
        rewrite map_app in Hnd, Hfind. apply List.NoDup_cons_iff. split.
        -- intros Hin. apply Hfind, in_or_app. left. exact Hin.
        -- exact (List.NoDup_app_remove_r _ _ Hnd).
      * apply List.NoDup_cons_iff. split; assumption.
Qed.

Lemma get_keeps_keys_distinct (opts : LRUCache.options) now k items :
  List.NoDup (map LRUCache.key items) ->
  List.NoDup (map LRUCache.key (snd (fst (LRUCache.get opts now k items)))).
Proof.
  intros Hnd. unfold LRUCache.get.
  destruct (LRUCache.find k items) as [e|] eqn:Hfind; cbn [fst snd]; [|exact Hnd].
  destruct (LRUCache.isStale opts now e); cbn [fst snd map];
    [apply NoDup_keys_remove; exact Hnd|].
  apply List.NoDup_cons_iff. split; [|apply NoDup_keys_remove; exact Hnd].
  intros Hin. apply keys_remove in Hin as [Hk _].
  apply Hk. exact (find_key _ _ _ Hfind).
Qed.

(** A lookup keeps the entry it finds, and [set] of another key keeps it
    too, at capacity as well. *)
Lemma set_keeps_head (opts : LRUCache.options) now k (v : V) items e :
  (2 <= LRUCache.max opts)%nat ->
  LRUCache.key e <> k ->
  LRUCache.find (LRUCache.key e)
    (fst (LRUCache.set opts now k v (e :: LRUCache.remove (LRUCache.key e) items)))
  = Some e.
Proof.
  intros Hmax Hk. unfold LRUCache.set.
  set (rest := LRUCache.remove (LRUCache.key e) items).
  assert (forall x tl, LRUCache.key x = k ->
            LRUCache.find (LRUCache.key e) (x :: e :: tl) = Some e) as Hkeep.
  { intros x tl Hx. rewrite find_skip by congruence. apply find_head. reflexivity. }
  destruct (LRUCache.find k (e :: rest)) as [old|] eqn:Hfind; cbn [fst].
  - unfold LRUCache.remove at 1. cbn [List.filter].
    replace (String.eqb (LRUCache.key e) k) with false
      by (symmetry; apply String.eqb_neq; exact Hk).
    cbn [negb]. apply Hkeep. reflexivity.
  - destruct (length (e :: rest) <? _)%nat eqn:Hlen; cbn [fst];
      [apply Hkeep; reflexivity|].
    apply Nat.ltb_ge in Hlen. cbn [length] in Hlen.
    destruct rest as [|x rest']; [cbn [length] in Hlen; lia|].
    destruct (LRUCache.lru (e :: x :: rest')) as [victim|]; cbn [fst].
    + change (removelast (e :: x :: rest')) with (e :: removelast (x :: rest')).
      apply Hkeep. reflexivity.
    + apply Hkeep. reflexivity.
Qed.

Lemma remove_app items items' k :
  LRUCache.remove k (items ++ items')
  = LRUCache.remove k items ++ LRUCache.remove k items'.
Proof. unfold LRUCache.remove. apply List.filter_app. Qed.

Lemma remove_keeps_others items k e :
  Forall (fun b => LRUCache.key b <> LRUCache.key e) items ->
  Forall (fun b => LRUCache.key b <> LRUCache.key e) (LRUCache.remove k items) /\
  (length (LRUCache.remove k items) <= length items)%nat.
Proof.
  intros Hall. split; [|apply remove_length].
  rewrite Forall_forall in *. intros b Hb. apply Hall.
  apply list_elem_of_In. apply list_elem_of_In in Hb.
  unfold LRUCache.remove in Hb. apply filter_In in Hb as [Hb _]. exact Hb.
Qed.

Lemma held_find n e items :
  held n e items -> LRUCache.find (LRUCache.key e) items = Some e.
Proof.
  intros (front & back & -> & Hfront & _).
  induction Hfront as [|b front Hb _ IH]; cbn [app].
  - apply find_head. reflexivity.
  - rewrite find_skip by exact Hb. exact IH.
Qed.

Lemma held_more n n' e items : (n <= n')%nat -> held n e items -> held n' e items.
Proof.
  intros Hn (front & back & Hitems & Hfront & Hlen).
  exists front, back. split; [exact Hitems|]. split; [exact Hfront|lia].
Qed.

Lemma remove_held n e items k :
  k <> LRUCache.key e -> held n e items -> held n e (LRUCache.remove k items).
Proof.
  intros Hk (front & back & -> & Hfront & Hlen).
  exists (LRUCache.remove k front), (LRUCache.remove k back).
  destruct (remove_keeps_others front k e Hfront) as [Hfront' Hlen'].
  split; [|split; [exact Hfront'|lia]].
  rewrite remove_app. f_equal. unfold LRUCache.remove at 1. cbn [List.filter].
  replace (String.eqb (LRUCache.key e) k) with false; [reflexivity|].
  symmetry. apply String.eqb_neq. congruence.
Qed.

Lemma cons_held n e x items :
  LRUCache.key x <> LRUCache.key e -> held n e items -> held (S n) e (x :: items).
Proof.
  intros Hx (front & back & -> & Hfront & Hlen).
  exists (x :: front), back. split; [reflexivity|].
  split; [constructor; assumption|cbn [length]; lia].
Qed.

(** [set] of another key keeps the entry, as long as it is not the last of
    a full registry. *)
Lemma set_held (opts : LRUCache.options) n e now k (v : V) items :
  k <> LRUCache.key e ->
  (n + 2 <= LRUCache.max opts)%nat ->
  held n e items ->
  held (S n) e (fst (LRUCache.set opts now k v items)).
Proof.
  intros Hk Hmax Hheld. unfold LRUCache.set.
  destruct (LRUCache.find k items) as [old|]; cbn [fst].
  - apply cons_held; [exact Hk|]. apply remove_held; assumption.
  - destruct (length items <? LRUCache.max opts)%nat eqn:Hfull; cbn [fst];
      [apply cons_held; assumption|].
    destruct (LRUCache.lru items) as [victim|]; cbn [fst];
      [|apply cons_held; assumption].
    apply cons_held; [exact Hk|].
    destruct Hheld as (front & back & -> & Hfront & Hlen).
    apply Nat.ltb_ge in Hfull. rewrite length_app in Hfull. cbn [length] in Hfull.
    destruct back as [|b back]; [cbn [length] in Hfull; lia|].
    exists front, (removelast (b :: back)).
    split; [|split; assumption].
    rewrite removelast_app by discriminate. reflexivity.
Qed.

Lemma get_held_other (opts : LRUCache.options) n e now k items :
  k <> LRUCache.key e ->
  held n e items ->
  held (S n) e (snd (fst (LRUCache.get opts now k items))).
Proof.
  intros Hk Hheld. unfold LRUCache.get.
  destruct (LRUCache.find k items) as [x|] eqn:Hfind; cbn [fst snd];
    [|apply (held_more n); [lia|exact Hheld]].
  destruct (LRUCache.isStale opts now x); cbn [fst snd].
  - apply (held_more n); [lia|]. apply remove_held; assumption.
  - apply cons_held; [rewrite (find_key _ _ _ Hfind); exact Hk|].
    apply remove_held; assumption.
Qed.

Lemma get_held_same (opts : LRUCache.options) n e now items :
  LRUCache.isStale opts now e = false ->
  held n e items ->
  held 0 e (snd (fst (LRUCache.get opts now (LRUCache.key e) items))).
Proof.
  intros Hfresh Hheld. unfold LRUCache.get.
  rewrite (held_find _ _ _ Hheld), Hfresh. cbn [fst snd].
  exists [], (LRUCache.remove (LRUCache.key e) items).
  split; [reflexivity|]. split; [constructor|cbn; lia].
Qed.

Lemma set_head (opts : LRUCache.options) now k (v : V) items :
  held 0 {| LRUCache.key := k; LRUCache.val := v; LRUCache.start := now |}
       (fst (LRUCache.set opts now k v items)).
Proof.
  unfold LRUCache.set.
  destruct (LRUCache.find k items); cbn [fst];
    [|destruct (length items <? _)%nat; cbn [fst];
      [|destruct (LRUCache.lru items); cbn [fst]]];
    (eexists [], _; split; [reflexivity|split; [constructor|cbn; lia]]).
Qed.

End session_facts.

Section sessions.
Context `{Driver}.

Lemma connCache_get_unknown (now : Z) (id : string) (s : Server) :
  LRUCache.find id (connCache s) = None ->
  connCache_get now id s = (Ok None, s).
Proof.
  intros Hfind. rewrite connCache_get_run. unfold LRUCache.get. rewrite Hfind.
  cbn. rewrite app_nil_r. destruct s. reflexivity.
Qed.

(** X8: for an identifier the registry has no entry for, each of the three
    tools throws [No connection found for ID: ] followed by the identifier,
    and the server is as it was: no driver is called and the registry is
    unchanged. *)
Theorem unknown_session_rejected (now : Z) (id : string) (s : Server) :
  LRUCache.find id (connCache s) = None ->
  inspect_database now id s = (Throw (Error ("No connection found for ID: " +:+ id)), s) /\
  (forall q, execute_query now id q s
             = (Throw (Error ("No connection found for ID: " +:+ id)), s)) /\
  (forall q, explain_query now id q s
             = (Throw (Error ("No connection found for ID: " +:+ id)), s)).
Proof.
  intros Hfind. pose proof (connCache_get_unknown now id s Hfind) as Hget.
  split; [|split]; intros;
    unfold inspect_database, execute_query, explain_query, bind; rewrite Hget;
    reflexivity.
Qed.

(** X9: when the driver refuses the connection, the [connect] tool throws
    the driver's error; the registry is unchanged, so that no session is
    registered and none is evicted, and the log has gained the one attempt to
    connect. *)
Theorem connect_tool_failure (now : Z) (id : string) (config : object)
    (m : AnyDatabaseManager) (e : exn) (s : Server) :
  createManagerFromConfig config = Ok m ->
  driver_connect m = Throw e ->
  connect_tool now id config s
  = (Throw e, {| connCache := connCache s; log := log s ++ [connect_event m] |}).
Proof.
  intros Hm He. unfold connect_tool, bind, lift, zoom.
  rewrite Hm, connect_run, He. reflexivity.
Qed.

Lemma connect_tool_success (now : Z) (id : string) (config : object)
    (m : AnyDatabaseManager) (h : Handle) (s : Server) :
  createManagerFromConfig config = Ok m ->
  driver_connect m = Ok h ->
  connect_tool now id config s
  = let out := LRUCache.set connCache_options now id (with_conn m h) (connCache s) in
    (Ok id, {| connCache := fst out;
               log := (log s ++ [connect_event m]) ++ disposal_events (snd out) |}).
Proof.
  intros Hm Hh. unfold connect_tool, bind, lift, zoom.
  rewrite Hm, connect_run, Hh, connCache_set_run. reflexivity.
Qed.

Lemma execute_query_live (now : Z) (id : string) (q : SqlQuery) (s : Server)
    (e : LRUCache.entry AnyDatabaseManager) :
  live now id s e ->
  execute_query now id q s
  = (fst (execute (LRUCache.val e) q (log s)),
     {| connCache := touched id s e; log := snd (execute (LRUCache.val e) q (log s)) |}).
Proof.
  intros Hlive. unfold execute_query, bind.
  rewrite (connCache_get_live now id s e Hlive). unfold zoom. cbn [log connCache].
  destruct (execute _ _ _). reflexivity.
Qed.

Lemma serve_held (n : nat) (e : LRUCache.entry AnyDatabaseManager) (s : Server)
    (r : request) :
  undisturbed (LRUCache.key e) (LRUCache.start e) r ->
  (n + 2 <= 100)%nat ->
  held n e (connCache s) ->
  held (S n) e (connCache (serve s r)).
Proof.
  intros Hr Hn Hheld. pose proof (serve_registry s r) as Hs.
  assert (forall now id,
            (id = LRUCache.key e -> now - LRUCache.start e <= 300000) ->
            held (S n) e (snd (fst (LRUCache.get connCache_options now id (connCache s)))))
    as Hget.
  { intros now id Hid. destruct (String.eqb_spec id (LRUCache.key e)) as [->|Hne].
    - specialize (Hid eq_refl).
      apply (held_more 0); [lia|]. apply (get_held_same _ n); [|exact Hheld].
      unfold LRUCache.isStale. cbn. apply Z.ltb_ge. lia.
    - apply get_held_other; assumption. }
  destruct r as [now id config|now id|now id q|now id q]; cbn [undisturbed] in Hr.
  - destruct Hs as [[_ ->]|(v & _ & ->)].
    + apply (held_more n); [lia|exact Hheld].
    + apply set_held; [exact Hr| |exact Hheld]. cbn. lia.
  - destruct Hs as [_ ->]. apply Hget, Hr.
  - destruct Hs as [_ ->]. apply Hget, Hr.
  - destruct Hs as [_ ->]. apply Hget, Hr.
Qed.

Lemma serve_all_held (e : LRUCache.entry AnyDatabaseManager) (between : list request) :
  Forall (undisturbed (LRUCache.key e) (LRUCache.start e)) between ->
  forall (n : nat) (s : Server),
    (n + length between <= 99)%nat ->
    held n e (connCache s) ->
    held (n + length between) e (connCache (fold_left serve between s)).
Proof.
  induction 1 as [|r between Hr _ IH]; intros n s Hn Hheld; cbn [fold_left length] in *.
  - rewrite Nat.add_0_r. exact Hheld.
  - replace (n + S (length between))%nat with (S n + length between)%nat by lia.
    apply IH; [lia|]. apply serve_held; [exact Hr|lia|exact Hheld].
Qed.

(** X10: a [connect] that succeeds at time [t] returns the identifier it
    was given by the generator and registers the session.  After at most 99
    further requests of any kind, none of them a [connect] that is given the
    same identifier or a lookup of it later than five minutes after [t], a
    query under that identifier within five minutes of [t] reaches the adapter
    that was connected: it returns what the adapter's [execute] returns, and
    the driver receives the statement of the query and its parameters, or no
    parameters when it has none, once, on the handle of that connection. *)
Theorem connect_then_execute (t t' : Z) (id : string) (config : object)
    (m : AnyDatabaseManager) (h : Handle) (q : SqlQuery) (s : Server)
    (between : list request) :
  createManagerFromConfig config = Ok m ->
  driver_connect m = Ok h ->
  (length between <= 99)%nat ->
  Forall (undisturbed id t) between ->
  t' - t <= 300000 ->
  let s1 := snd (connect_tool t id config s) in
  let s2 := fold_left serve between s1 in
  fst (connect_tool t id config s) = Ok id /\
  fst (execute_query t' id q s2) = fst (execute (with_conn m h) q (log s2)) /\
  log (snd (execute_query t' id q s2))
  = log s2 ++ [driver_call m h (sql q)
                 (match params q with Some ps => ps | None => [] end)].
Proof.
  intros Hm Hh Hlen Hbetween Ht s1 s2.
  pose proof (connect_tool_success t id config m h s Hm Hh) as Hrun.
  cbv zeta in Hrun. split; [rewrite Hrun; reflexivity|].
  set (e := {| LRUCache.key := id; LRUCache.val := with_conn m h;
               LRUCache.start := t |}).
  assert (held 0 e (connCache s1)) as Hheld.
  { subst s1. rewrite Hrun. cbn [snd connCache]. apply set_head. }
  assert (live t' id s2 e) as Hlive.
  { split.
    - apply (held_find (0 + length between) e).
      apply (serve_all_held e between Hbetween 0 s1); [cbn; lia|exact Hheld].
    - unfold LRUCache.isStale. cbn. apply Z.ltb_ge. lia. }
  rewrite (execute_query_live t' id q s2 e Hlive). cbn [fst snd log LRUCache.val e].
  split; [reflexivity|].
  rewrite (execute_log _ h) by apply any_conn_with_conn.
  unfold params_or_empty, default. destruct m, (params q); reflexivity.
Qed.

Lemma serve_keeps (P : list (LRUCache.entry AnyDatabaseManager) -> Prop) :
  (forall now k items,
     P items -> P (snd (fst (LRUCache.get connCache_options now k items)))) ->
  (forall now k v items,
     P items -> P (fst (LRUCache.set connCache_options now k v items))) ->
  forall s r, P (connCache s) -> P (connCache (serve s r)).
Proof.
  intros Hget Hset s r Hs.
  assert (forall now k, P (connCache (snd (connCache_get now k s)))) as Hlookup.
  { intros now k. rewrite connCache_get_run. cbn [snd connCache]. apply Hget, Hs. }
  destruct r as [now id config|now id|now id q|now id q]; cbn [serve].
  - unfold connect_tool, bind, lift.
    destruct (createManagerFromConfig config) as [m|e]; [|exact Hs].
    pose proof (zoom_connCache (connect m) s) as Hz.
    destruct (zoom (connect m) s) as [[m'|e] s1]; cbn [snd] in *.
    + rewrite connCache_set_run. cbn [snd connCache]. apply Hset. rewrite Hz. exact Hs.
    + rewrite Hz. exact Hs.
  - unfold inspect_database, bind. specialize (Hlookup now id).
    destruct (connCache_get now id s) as [[[m|]|e] s']; cbn [snd] in *;
      try exact Hlookup.
    rewrite zoom_connCache. exact Hlookup.
  - unfold execute_query, bind. specialize (Hlookup now id).
    destruct (connCache_get now id s) as [[[m|]|e] s']; cbn [snd] in *;
      try exact Hlookup.
    rewrite zoom_connCache. exact Hlookup.
  - unfold explain_query, bind, ret. specialize (Hlookup now id).
    destruct (connCache_get now id s) as [[[m|]|e] s']; cbn [snd] in *;
      try exact Hlookup.
    pose proof (zoom_connCache (execute m {| sql := explainQuery q;
                                             params := ex_params q |}) s') as Hz.
    destruct (zoom _ s') as [[res|e] s'']; cbn [snd] in *; rewrite Hz; exact Hlookup.
Qed.

(** X11: whatever requests the server has handled, and whichever
    identifiers the generator gave, no two entries of the registry have the
    same identifier. *)
Theorem registry_keys_distinct (requests : list request) :
  List.NoDup (keys (serve_all requests)).
Proof.
  unfold serve_all, keys.
  assert (forall s, List.NoDup (map LRUCache.key (connCache s)) ->
            List.NoDup (map LRUCache.key (connCache (fold_left serve requests s))))
    as Hall.
  { induction requests as [|r requests IH]; intros s Hs; cbn [fold_left]; [exact Hs|].
    apply IH.
    apply (serve_keeps (fun items => List.NoDup (map LRUCache.key items))).
    - intros now k items. apply get_keeps_keys_distinct.
    - intros now k v items. apply set_keeps_keys_distinct.
    - exact Hs. }
  apply Hall. apply List.NoDup_nil.
Qed.

(** X12: a session that has just been used is not the one an insertion
    evicts: after a query under a live identifier, setting any other key
    leaves the entry of that identifier in the registry, with the time of its
    insertion unchanged. *)
Theorem used_session_survives_insertion (t t2 : Z) (id k : string) (q : SqlQuery)
    (v : AnyDatabaseManager) (s : Server) (e : LRUCache.entry AnyDatabaseManager) :
  live t id s e ->
  k <> id ->
  LRUCache.find id
    (connCache (snd (connCache_set t2 k v (snd (execute_query t id q s)))))
  = Some e.
Proof.
  intros Hlive Hk.
  assert (LRUCache.key e = id) as Hkey by exact (find_key _ _ _ (proj1 Hlive)).
  rewrite (execute_query_live t id q s e Hlive). cbn [snd].
  rewrite connCache_set_run. cbn [snd connCache]. unfold touched.
  rewrite <- Hkey. apply set_keeps_head; [cbn; lia|congruence].
Qed.

End sessions.

(** ** Tables as text *)

Lemma occurrences_app (c : Ascii.ascii) (s1 s2 : string) :
  occurrences c (s1 +:+ s2) = (occurrences c s1 + occurrences c s2)%nat.
Proof. induction s1 as [|c' s1 IH]; simpl; [reflexivity|]. rewrite IH. lia. Qed.

(** A character that occurs once in the separator and in none of the
    pieces occurs once between any two pieces. *)
Lemma occurrences_join (c : Ascii.ascii) (sep : string) (xs : list string) :
  occurrences c sep = 1%nat ->
  Forall (fun x => occurrences c x = 0%nat) xs ->
  occurrences c (join sep xs) = (length xs - 1)%nat.
Proof.
  intros Hsep Hxs. induction Hxs as [|x xs Hx Hxs IH]; [reflexivity|].
  cbn [join]. destruct xs as [|y ys]; [cbn; lia|].
  rewrite !occurrences_app, Hx, Hsep, IH. cbn [length]. lia.
Qed.

Lemma lines_no_feed (x : string) :
  occurrences line_feed x = 0%nat -> lines x = [x].
Proof.
  induction x as [|c x IH]; cbn [occurrences lines]; [reflexivity|].
  destruct (Ascii.eqb c line_feed); [discriminate|].
  intros Hx. rewrite (IH Hx). reflexivity.
Qed.

Lemma lines_feed (x s : string) :
  occurrences line_feed x = 0%nat ->
  lines (x +:+ newline +:+ s) = x :: lines s.
Proof.
  induction x as [|c x IH]; simpl.
  - intros _. reflexivity.
  - destruct (Ascii.eqb c line_feed); [discriminate|].
    intros Hx. rewrite (IH Hx). reflexivity.
Qed.

(** The lines of pieces joined by line feeds are the pieces, when none of
    them holds a line feed. *)
Lemma lines_join (xs : list string) :
  Forall (fun x => occurrences line_feed x = 0%nat) xs ->
  xs <> [] ->
  lines (join newline xs) = xs.
Proof.
  intros Hxs. induction Hxs as [|x xs Hx Hxs IH]; [intros []; reflexivity|].
  intros _. cbn [join]. destruct xs as [|y ys]; [apply lines_no_feed, Hx|].
  rewrite (lines_feed _ _ Hx), IH by discriminate. reflexivity.
Qed.

Section table_facts.
Variable Number_toString : number -> string.

(** X13: whatever the cell, its text in a table is not empty, as long as
    numbers print to something: [null], [undefined] and the empty string all
    come out as [NULL], any other string as itself, the booleans as [true]
    and [false]. *)
Theorem cell_text_never_empty (cell : value) :
  (forall n, Number_toString n <> "") ->
  cell_text Number_toString cell <> "" /\
  (cell = VNull \/ cell = VUndefined \/ cell = VStr "" ->
   cell_text Number_toString cell = "NULL") /\
  (forall s, cell = VStr s -> s <> "" -> cell_text Number_toString cell = s) /\
  (forall b, cell = VBool b ->
             cell_text Number_toString cell = if b then "true" else "false").
Proof.
  intros Hnum. unfold cell_text, or_text. split; [|split; [|split]].
  - destruct cell as [| |[]|n|s]; cbn; try discriminate.
    + destruct (String.eqb _ "") eqn:E; [discriminate|].
      apply String.eqb_neq in E. exact E.
    + destruct (String.eqb s "") eqn:E; [discriminate|].
      apply String.eqb_neq in E. exact E.
  - intros [->|[->| ->]]; reflexivity.
  - intros s -> Hs. cbn. apply String.eqb_neq in Hs. rewrite Hs. reflexivity.
  - intros [] ->; reflexivity.
Qed.

(** X14: a table of [n] rows is [n + 2] lines of text, as long as no
    header and no cell text holds a line feed: the first line is the headers
    joined by bars, the second one [---] per header joined by bars, and then
    one line for each row, in the order of the rows, of its cell texts joined
    by bars; so there are [n + 1] line feeds, one too when there is no
    row. *)
Theorem formatTable_lines (headers : list string) (rows : list (list value)) :
  Forall (fun header => occurrences line_feed header = 0%nat) headers ->
  Forall (Forall (fun cell => occurrences line_feed (cell_text Number_toString cell)
                               = 0%nat)) rows ->
  lines (formatTable Number_toString headers rows)
  = join " | " headers
    :: join " | " (replicate (length headers) "---")
    :: map (fun row => join " | " (map (cell_text Number_toString) row)) rows /\
  length (lines (formatTable Number_toString headers rows)) = (length rows + 2)%nat /\
  occurrences line_feed (formatTable Number_toString headers rows)
  = (length rows + 1)%nat.
Proof.
  intros Hheaders Hrows. unfold formatTable.
  assert (forall xs, Forall (fun x => occurrences line_feed x = 0%nat) xs ->
            occurrences line_feed (join " | " xs) = 0%nat) as Hjoin.
  { intros xs Hxs. induction Hxs as [|x xs Hx Hxs IH]; [reflexivity|].
    cbn [join]. destruct xs as [|y ys]; [exact Hx|].
    rewrite !occurrences_app, Hx, IH. reflexivity. }
  assert (Forall (fun x => occurrences line_feed x = 0%nat)
            (headerRow headers :: separator headers
             :: dataRows Number_toString rows)) as Hall.
  { constructor; [apply Hjoin, Hheaders|]. constructor.
    { apply Hjoin, Forall_forall. intros x Hx.
      apply list_elem_of_In, in_map_iff in Hx as (h & <- & _). reflexivity. }
    unfold dataRows. apply Forall_forall. intros line Hline.
    apply list_elem_of_In, in_map_iff in Hline as (row & <- & Hrow).
    apply Hjoin. rewrite Forall_forall in Hrows.
    specialize (Hrows row (proj2 (list_elem_of_In _ _) Hrow)).
    apply Forall_forall. intros x Hx.
    apply list_elem_of_In, in_map_iff in Hx as (cell & <- & Hcell).
    rewrite Forall_forall in Hrows. apply Hrows, list_elem_of_In, Hcell. }
  assert (lines (join newline (headerRow headers :: separator headers
                               :: dataRows Number_toString rows))
          = join " | " headers
            :: join " | " (replicate (length headers) "---")
            :: map (fun row => join " | " (map (cell_text Number_toString) row)) rows)
    as Hlines.
  { rewrite (lines_join _ Hall) by discriminate.
    unfold headerRow, separator, dataRows. do 2 f_equal.
    f_equal. clear. induction headers as [|h hs IH]; cbn; [reflexivity|].
    rewrite IH. reflexivity. }
  split; [exact Hlines|]. split.
  - rewrite Hlines. cbn [length]. rewrite length_map. lia.
  - rewrite occurrences_join; [cbn [length]; unfold dataRows; rewrite length_map; lia
                              |reflexivity|exact Hall].
Qed.

(** X15: the table of a result of [execute] is rectangular: when no column
    name and no cell text holds a bar, the header, the separator and every
    data row hold the same number of bars, one less than there are
    columns. *)
Theorem formatTable_rectangular (columns : list string) (native : list object) :
  Forall (fun column => occurrences bar column = 0%nat) columns ->
  Forall (Forall (fun cell => occurrences bar (cell_text Number_toString cell) = 0%nat))
         (formatRows columns native) ->
  Forall (fun line => occurrences bar line = (length columns - 1)%nat)
         (headerRow columns :: separator columns
          :: dataRows Number_toString (formatRows columns native)).
Proof.
  intros Hcols Hcells.
  constructor; [apply occurrences_join; [reflexivity|exact Hcols]|].
  constructor.
  { unfold separator. rewrite occurrences_join; [rewrite length_map; reflexivity
                                                |reflexivity|].
    apply Forall_forall. intros x Hx.
    apply list_elem_of_In, in_map_iff in Hx as (h & <- & _). reflexivity. }
  unfold dataRows. apply Forall_forall. intros line Hline.
  apply list_elem_of_In, in_map_iff in Hline as (row & <- & Hrow).
  rewrite Forall_forall in Hcells.
  specialize (Hcells row (proj2 (list_elem_of_In _ _) Hrow)).
  rewrite occurrences_join; [|reflexivity|].
  - rewrite length_map. unfold formatRows in Hrow.
    apply in_map_iff in Hrow as (r & <- & _). rewrite formatRow_length. reflexivity.
  - apply Forall_forall. intros x Hx.
    apply list_elem_of_In, in_map_iff in Hx as (cell & <- & Hcell).
    rewrite Forall_forall in Hcells. apply Hcells, list_elem_of_In, Hcell.
Qed.

End table_facts.

(** ** The launcher *)

(** X16: the launcher looks for one executable in the directory [dist]
    beside the script: [dbmcp-linux-x64] on [linux] and
    [dbmcp-windows-x64.exe] on [win32], whatever the architecture, and on
    [darwin] [dbmcp-darwin-arm64] for the architecture [arm64] and
    [dbmcp-darwin-x64] for any other.  It returns the path of that executable
    when the file exists and throws [Executable not found: ] followed by the
    path when it does not; for any other platform it throws
    [Unsupported platform: ] followed by the platform. *)
Theorem getExecutablePath_platforms (dirname_ : string)
    (path_join : list string -> string) (existsSync : string -> bool)
    (osType cpuArch : string) :
  let run := getExecutablePath dirname_ path_join existsSync in
  let path name := path_join [path_join [dirname_; ".."; "dist"]; name] in
  let found name := if existsSync (path name) then Ok (path name)
                    else Throw (Error ("Executable not found: " +:+ path name)) in
  (osType = "linux" -> run osType cpuArch = found "dbmcp-linux-x64") /\
  (osType = "win32" -> run osType cpuArch = found "dbmcp-windows-x64.exe") /\
  (osType = "darwin" -> cpuArch = "arm64" ->
   run osType cpuArch = found "dbmcp-darwin-arm64") /\
  (osType = "darwin" -> cpuArch <> "arm64" ->
   run osType cpuArch = found "dbmcp-darwin-x64") /\
  (osType <> "linux" -> osType <> "win32" -> osType <> "darwin" ->
   run osType cpuArch = Throw (Error ("Unsupported platform: " +:+ osType))) /\
  (forall p, run osType cpuArch = Ok p ->
             supported_platform osType = true /\ existsSync p = true) /\
  (osType <> "darwin" -> forall other, run osType other = run osType cpuArch).
Proof.
  intros run path found. unfold run, found, path, getExecutablePath, supported_platform.
  destruct (String.eqb osType "linux") eqn:Hl;
    [|destruct (String.eqb osType "win32") eqn:Hw;
      [|destruct (String.eqb osType "darwin") eqn:Hd]].
  - apply String.eqb_eq in Hl. subst osType. cbn.
    refine (conj _ (conj _ (conj _ (conj _ (conj _ (conj _ _)))))).
    + intros _. destruct (existsSync _); reflexivity.
    + intros E. discriminate E.
    + intros E. discriminate E.
    + intros E. discriminate E.
    + intros E. destruct (E eq_refl).
    + intros p. destruct (existsSync _) eqn:He; cbn; [|discriminate].
      intros [= <-]. split; [reflexivity|exact He].
    + intros _ other. reflexivity.
  - apply String.eqb_eq in Hw. subst osType. cbn.
    refine (conj _ (conj _ (conj _ (conj _ (conj _ (conj _ _)))))).
    + intros E. discriminate E.
    + intros _. destruct (existsSync _); reflexivity.
    + intros E. discriminate E.
    + intros E. discriminate E.
    + intros _ E. destruct (E eq_refl).
    + intros p. destruct (existsSync _) eqn:He; cbn; [|discriminate].
      intros [= <-]. split; [reflexivity|exact He].
    + intros _ other. reflexivity.
  - apply String.eqb_eq in Hd. subst osType. cbn.
    refine (conj _ (conj _ (conj _ (conj _ (conj _ (conj _ _)))))).
    + intros E. discriminate E.
    + intros E. discriminate E.
    + intros _ ->. cbn. destruct (existsSync _); reflexivity.
    + intros _ Harch. apply String.eqb_neq in Harch. rewrite Harch.
      destruct (existsSync _); reflexivity.
    + intros _ _ E. destruct (E eq_refl).
    + intros p. destruct (String.eqb cpuArch "arm64");
        (destruct (existsSync _) eqn:He; cbn; [|discriminate]);
        intros [= <-]; (split; [reflexivity|exact He]).
    + intros E. destruct (E eq_refl).
  - apply String.eqb_neq in Hl, Hw, Hd. cbn.
    refine (conj _ (conj _ (conj _ (conj _ (conj _ (conj _ _)))))).
    + intros E. destruct (Hl E).
    + intros E. destruct (Hw E).
    + intros E. destruct (Hd E).
    + intros E. destruct (Hd E).
    + intros _ _ _. reflexivity.
    + intros p E. discriminate E.
    + intros _ other. reflexivity.
Qed.

(** ** The schemas of the queries *)

Lemma sql_field_Some (i : input) (s : string) :
  sql_field i = Some s -> i = Prim (VStr s) /\ s <> "".
Proof.
  unfold sql_field, on_prim, z_min, z.string_.
  destruct i as [[| |b|n|x]|items]; try discriminate.
  destruct x as [|c x]; cbn; [discriminate|].
  intros [= <-]. split; [reflexivity|discriminate].
Qed.

Lemma z_items_params (items parsed : list value) :
  z_items SqlParamSchema items = Some parsed ->
  parsed = items /\ Forall sql_param items.
Proof.
  revert parsed. induction items as [|v items IH]; intros parsed; cbn [z_items].
  - intros [= <-]. split; [reflexivity|constructor].
  - destruct (SqlParamSchema v) as [v'|] eqn:Hv; [|discriminate].
    destruct (z_items SqlParamSchema items) as [rest|]; [|discriminate].
    intros [= <-]. destruct (IH rest eq_refl) as [-> Hitems].
    assert (v' = v /\ sql_param v) as [-> Hparam].
    { destruct v as [| |b|[q| |neg]|s]; vm_compute in Hv; try discriminate;
        injection Hv as <-; split; reflexivity || exact I. }
    split; [reflexivity|constructor; assumption].
Qed.

Lemma params_field_Some (i : input) (ps : option (list value)) :
  z_array_optional SqlParamSchema i = Some ps ->
  match ps with
  | None => i = Prim VUndefined
  | Some items => i = Arr items /\ Forall sql_param items
  end.
Proof.
  unfold z_array_optional. destruct i as [[| |b|n|s]|items]; try discriminate.
  - intros [= <-]. reflexivity.
  - destruct (z_items SqlParamSchema items) as [parsed|] eqn:Hitems; [|discriminate].
    intros [= <-]. destruct (z_items_params _ _ Hitems) as [-> Hall].
    split; [reflexivity|exact Hall].
Qed.

(** X17: a query that [SqlQuerySchema] lets through carries the statement
    it was given, which is a string and not the empty one, and either no
    parameters or the array it was given, in which no parameter is
    [undefined] or [NaN]; an input whose statement is missing, empty or not a
    string is refused with an issue on [sql]. *)
Theorem SqlQuerySchema_parse_sound (o : inputs) :
  (forall q, SqlQuerySchema_parse o = Ok q ->
     input_get o "sql" = Prim (VStr (sql q)) /\ sql q <> "" /\
     match params q with
     | None => input_get o "params" = Prim VUndefined
     | Some items => input_get o "params" = Arr items /\ Forall sql_param items
     end) /\
  ((forall s, input_get o "sql" = Prim (VStr s) -> s = "") ->
   exists issues, In "sql" issues /\ SqlQuerySchema_parse o = Throw (ZodError issues)).
Proof.
  unfold SqlQuerySchema_parse. split.
  - intros q.
    destruct (sql_field (input_get o "sql")) as [s|] eqn:Hsql; [|discriminate].
    destruct (z_array_optional _ _) as [ps|] eqn:Hps; [|discriminate].
    intros [= <-]. cbn [sql params].
    destruct (sql_field_Some _ _ Hsql) as [Hi Hs].
    split; [exact Hi|]. split; [exact Hs|]. exact (params_field_Some _ _ Hps).
  - intros Hempty.
    destruct (sql_field (input_get o "sql")) as [s|] eqn:Hsql.
    + destruct (sql_field_Some _ _ Hsql) as [Hi Hs]. destruct (Hs (Hempty s Hi)).
    + eexists. split; [|reflexivity]. left. reflexivity.
Qed.

(** X18: a query that [ExplainQuerySchema] lets through carries a statement
    that is not empty, and when the input has no [analyze] the flag is off, so
    that the statement built from it is the plain [EXPLAIN ] of the statement
    given. *)
Theorem ExplainQuerySchema_parse_default (o : inputs) (q : ExplainQuery) :
  ExplainQuerySchema_parse o = Ok q ->
  input_get o "sql" = Prim (VStr (ex_sql q)) /\ ex_sql q <> "" /\
  (input_get o "analyze" = Prim VUndefined ->
   analyze q = false /\ explainQuery q = "EXPLAIN " +:+ ex_sql q) /\
  (forall b, input_get o "analyze" = Prim (VBool b) -> analyze q = b).
Proof.
  unfold ExplainQuerySchema_parse.
  destruct (sql_field (input_get o "sql")) as [s|] eqn:Hsql; [|discriminate].
  destruct (z_array_optional _ _) as [ps|] eqn:Hps; [|discriminate].
  destruct (analyze_field (input_get o "analyze")) as [b|] eqn:Hb; [|discriminate].
  intros [= <-]. cbn [ex_sql analyze].
  destruct (sql_field_Some _ _ Hsql) as [Hi Hs].
  split; [exact Hi|]. split; [exact Hs|]. split.
  - intros Hu. rewrite Hu in Hb. cbn in Hb. injection Hb as <-.
    split; reflexivity.
  - intros b' Hb'. rewrite Hb' in Hb. cbn in Hb. injection Hb as <-. reflexivity.
Qed.

(** ** The name of the database *)

(** X19: when the engine names no database (MySQL answers [NULL] when none
    is selected), the description an [introspect] returns is named after the
    database of the configuration. *)
Theorem introspect_name_fallback `{Driver} (m : AnyDatabaseManager) (h : Handle)
    (layout : DatabaseLayout) (l l' : Log) :
  any_conn m = Some h ->
  unnamed (database_rows m h) ->
  introspect m l = (Ok layout, l') ->
  layout_name layout = get (any_config m) "database".
Proof.
  assert (forall rows, unnamed rows -> truthy (first_row_field rows "db_name") = false)
    as Hfalsy.
  { intros [|row rows]; cbn; [reflexivity|]. unfold get.
    intros [->|[->| ->]]; reflexivity. }
  destruct m as [[cfg c]|[cfg c]]; cbn [any_conn any_config database_rows
    MysqlDatabaseManager.conn PostgresqlDatabaseManager.conn
    MysqlDatabaseManager.config PostgresqlDatabaseManager.config];
    intros -> Hrows; run.
  - destruct (mysql_execute h mysql_database_sql []) as [r0|e]; [|discriminate].
    unfold MysqlDatabaseManager.rows_of.
    destruct (mysql_execute h mysql_tables_sql _) as [[rows f|]|e]; try discriminate.
    unfold ret at 1. destruct (mapM _ rows _) as [[ts|e] l2]; [|discriminate].
    intros [= <- _]. cbn [layout_name]. unfold or.
    destruct r0 as [rows0 f0|]; [rewrite (Hfalsy _ Hrows)|]; reflexivity.
  - destruct (pg_query h pg_database_sql []) as [r0|e]; [|discriminate].
    destruct (pg_query h pg_tables_sql []) as [r1|e]; [|discriminate].
    destruct (mapM _ (pg_rows r1) _) as [[ts|e] l2]; [|discriminate].
    intros [= <- _]. cbn [layout_name]. unfold or.
    rewrite (Hfalsy _ Hrows). reflexivity.
Qed.

(** ** Introspection against the engines *)

Section engine_facts.
Variable cat : InformationSchema.catalog.

Lemma pg_columns_null : InformationSchema.pg_columns cat VUndefined = [].
Proof.
  unfold InformationSchema.pg_columns.
  replace (filter _ (InformationSchema.columns_view cat)) with
    (@nil InformationSchema.columns_row); [reflexivity|].
  symmetry. induction (InformationSchema.columns_view cat) as [|c cs IH];
    [reflexivity|].
  rewrite filter_cons_False; [exact IH|]. cbn. discriminate.
Qed.

Lemma pg_foreign_keys_null : InformationSchema.pg_foreign_keys cat VUndefined = [].
Proof.
  unfold InformationSchema.pg_foreign_keys.
  replace (filter _ (InformationSchema.table_constraints cat)) with
    (@nil InformationSchema.table_constraints_row); [reflexivity|].
  symmetry. induction (InformationSchema.table_constraints cat) as [|c cs IH];
    [reflexivity|].
  rewrite filter_cons_False; [exact IH|].
  cbn. rewrite andb_false_r. discriminate.
Qed.

Lemma pg_engine_columns (c : Handle) (table : value) :
  InformationSchema.pg_engine cat c pg_columns_sql [table]
  = Ok {| pg_rows := InformationSchema.pg_columns cat table;
          pg_fields := ["column_name"; "data_type"; "is_nullable"; "column_default";
                        "is_primary_key"] |}.
Proof. reflexivity. Qed.

Lemma pg_engine_foreign_keys (c : Handle) (table : value) :
  InformationSchema.pg_engine cat c pg_foreign_keys_sql [table]
  = Ok {| pg_rows := InformationSchema.pg_foreign_keys cat table;
          pg_fields := ["column_name"; "foreign_table_name"; "foreign_column_name";
                        "constraint_name"] |}.
Proof. reflexivity. Qed.

Lemma pg_introspect_table_nameless (c : Handle) (row : object) (l : Log) :
  In row (InformationSchema.pg_tables cat) ->
  @PostgresqlDatabaseManager.introspect_table (InformationSchema.engine cat) c row l
  = (Ok nameless_table,
     l ++ [PgQuery c pg_columns_sql [VUndefined];
           PgQuery c pg_foreign_keys_sql [VUndefined]]).
Proof.
  intros Hrow. unfold PostgresqlDatabaseManager.introspect_table,
    PostgresqlDatabaseManager.conn_query, bind, emit, lift, ret.
  rewrite (pg_tables_keys cat row Hrow).
  cbn [pg_query InformationSchema.engine].
  rewrite pg_engine_columns, pg_engine_foreign_keys.
  rewrite pg_columns_null, pg_foreign_keys_null. cbn [pg_rows map].
  rewrite <- app_assoc. reflexivity.
Qed.

(** X20: against a PostgreSQL engine, whatever its catalog, [introspect]
    of the Postgres adapter returns one description for each base table of
    the schema [public], and every one of them has the name [undefined], no
    columns and no foreign keys. *)
Theorem pg_introspect_nameless (this : PostgresqlDatabaseManager.t) (c : Handle)
    (l : Log) :
  PostgresqlDatabaseManager.conn this = Some c ->
  exists layout l',
    @PostgresqlDatabaseManager.introspect (InformationSchema.engine cat) this l
    = (Ok layout, l') /\
    tables layout
    = map (fun _ => nameless_table)
          (filter (fun t => InformationSchema.t_schema t = "public" /\
                            InformationSchema.t_type t = "BASE TABLE")
                  (InformationSchema.tables_view cat)).
Proof.
  intros Hc. unfold PostgresqlDatabaseManager.introspect. rewrite Hc.
  unfold PostgresqlDatabaseManager.conn_query, bind at 1 2 3 4, emit, lift.
  cbn [pg_query InformationSchema.engine].
  change (InformationSchema.pg_engine cat c pg_database_sql [])
    with (Ok {| pg_rows := [InformationSchema.row
                              [("db_name", VStr (InformationSchema.database cat))]];
                pg_fields := ["db_name"] |} : result PgResult).
  change (InformationSchema.pg_engine cat c pg_tables_sql [])
    with (Ok {| pg_rows := InformationSchema.pg_tables cat;
                pg_fields := ["table_name"] |} : result PgResult).
  cbn [pg_rows].
  assert (forall rows l0,
            (forall row, In row rows -> In row (InformationSchema.pg_tables cat)) ->
            exists l1,
              mapM (@PostgresqlDatabaseManager.introspect_table
                      (InformationSchema.engine cat) c) rows l0
              = (Ok (map (fun _ => nameless_table) rows), l1)) as Hwalk.
  { induction rows as [|row rows IH]; intros l0 Hin; cbn [mapM map].
    - exists l0. reflexivity.
    - unfold bind at 1. rewrite pg_introspect_table_nameless by (apply Hin; left; reflexivity).
      destruct (IH (l0 ++ [PgQuery c pg_columns_sql [VUndefined];
                           PgQuery c pg_foreign_keys_sql [VUndefined]]))
        as [l1 Hl1]; [intros r Hr; apply Hin; right; exact Hr|].
      unfold bind at 1. rewrite Hl1. exists l1. reflexivity. }
  destruct (Hwalk (InformationSchema.pg_tables cat)
              ((l ++ [PgQuery c pg_database_sql []]) ++ [PgQuery c pg_tables_sql []])
              (fun _ Hr => Hr)) as [l1 Hl1].
  unfold bind, ret. rewrite Hl1. eexists. exists l1. split; [reflexivity|].
  cbn [tables]. unfold InformationSchema.pg_tables. rewrite !map_map.
  f_equal. apply list_filter_iff. intros t.
  rewrite andb_true_iff, !String.eqb_eq. reflexivity.
Qed.

End engine_facts.

Section mysql_engine_facts.
Variable cat : InformationSchema.catalog.

Lemma mysql_introspect_table_engine (this : MysqlDatabaseManager.t) (c : Handle)
    (row : object) (l : Log) :
  exists t l',
    @MysqlDatabaseManager.introspect_table (InformationSchema.engine cat) this c row l
    = (Ok t, l') /\
    table_name t = get row "table_name".
Proof.
  unfold MysqlDatabaseManager.introspect_table, MysqlDatabaseManager.conn_execute,
    MysqlDatabaseManager.rows_of, bind, emit, lift, ret.
  cbn [mysql_execute InformationSchema.engine].
  change (InformationSchema.mysql_engine cat c mysql_columns_sql
            [get (MysqlDatabaseManager.config this) "database"; get row "table_name"])
    with (Ok (MyRows (InformationSchema.mysql_columns cat
                        (get (MysqlDatabaseManager.config this) "database")
                        (get row "table_name"))
                     ["column_name"; "data_type"; "is_nullable"; "column_default";
                      "column_key"]) : result MysqlResult).
  change (InformationSchema.mysql_engine cat c mysql_foreign_keys_sql
            [get (MysqlDatabaseManager.config this) "database"; get row "table_name"])
    with (Ok (MyRows (InformationSchema.mysql_foreign_keys cat
                        (get (MysqlDatabaseManager.config this) "database")
                        (get row "table_name"))
                     ["column_name"; "referenced_table_name"; "referenced_column_name";
                      "constraint_name"]) : result MysqlResult).
  eexists. eexists. split; reflexivity.
Qed.

(** X21: against a MySQL engine, whatever its catalog, [introspect] of the
    MySQL adapter returns, and describes every entry that the view of tables
    has for the database of the configuration, in the order of that view and
    whatever its type: a view of the database is described as a table. *)
Theorem mysql_introspect_lists_views (this : MysqlDatabaseManager.t) (c : Handle)
    (db : string) (l : Log) :
  MysqlDatabaseManager.conn this = Some c ->
  get (MysqlDatabaseManager.config this) "database" = VStr db ->
  exists layout l',
    @MysqlDatabaseManager.introspect (InformationSchema.engine cat) this l
    = (Ok layout, l') /\
    map table_name (tables layout)
    = map (fun t => VStr (InformationSchema.t_name t))
          (filter (fun t => InformationSchema.t_schema t = db)
                  (InformationSchema.tables_view cat)).
Proof.
  intros Hc Hdb. unfold MysqlDatabaseManager.introspect. rewrite Hc, Hdb.
  unfold MysqlDatabaseManager.conn_execute, MysqlDatabaseManager.rows_of,
    bind at 1 2 3 4 5, emit, lift.
  cbn [mysql_execute InformationSchema.engine].
  change (InformationSchema.mysql_engine cat c mysql_database_sql [])
    with (Ok (MyRows [InformationSchema.row
                        [("db_name", VStr (InformationSchema.database cat))]]
                     ["db_name"]) : result MysqlResult).
  change (InformationSchema.mysql_engine cat c mysql_tables_sql [VStr db])
    with (Ok (MyRows (InformationSchema.mysql_tables cat (VStr db)) ["table_name"])
          : result MysqlResult).
  unfold ret at 1.
  assert (forall rows l0,
            exists ts l1,
              mapM (@MysqlDatabaseManager.introspect_table
                      (InformationSchema.engine cat) this c) rows l0
              = (Ok ts, l1) /\
              map table_name ts = map (fun row => get row "table_name") rows) as Hwalk.
  { induction rows as [|row rows IH]; intros l0; cbn [mapM map].
    - exists [], l0. split; reflexivity.
    - destruct (mysql_introspect_table_engine this c row l0) as (t & l1 & Ht & Hname).
      destruct (IH l1) as (ts & l2 & Hts & Hnames).
      unfold bind at 1. rewrite Ht. unfold bind at 1. rewrite Hts.
      exists (t :: ts), l2. split; [reflexivity|]. cbn [map]. congruence. }
  destruct (Hwalk (InformationSchema.mysql_tables cat (VStr db))
              ((l ++ [MysqlExecute c mysql_database_sql []]) ++
               [MysqlExecute c mysql_tables_sql [VStr db]])) as (ts & l1 & Hts & Hnames).
  unfold bind, ret. rewrite Hts. eexists. exists l1. split; [reflexivity|].
  cbn [tables]. rewrite Hnames. unfold InformationSchema.mysql_tables.
  rewrite !map_map. cbn.
  f_equal. apply list_filter_iff. intros t. cbn. apply String.eqb_eq.
Qed.

End mysql_engine_facts.

(** * Instances of the further properties *)

Lemma execute_propagates_rejection_witness :
  @execute faulty_driver _ _ sample_mysql misspelt_query []
  = (Throw (DriverError "ER_PARSE_ERROR"), [MysqlExecute 1%nat "SELEC 1" []]).
Proof.
  exact (@execute_propagates_rejection faulty_driver sample_mysql 1%nat misspelt_query
           (DriverError "ER_PARSE_ERROR") [] eq_refl eq_refl).
Defined.

Lemma execute_without_result_set_witness :
  (exists msg,
     @execute faulty_driver _ _ sample_mysql insert_query []
     = (Throw (TypeError msg),
        [MysqlExecute 1%nat "INSERT INTO people (name) VALUES (?)" [VStr "Ada"]])) /\
  @execute faulty_driver _ _ sample_pg insert_query []
  = (Ok {| res_columns := []; res_rows := [] |},
     [PgQuery 2%nat "INSERT INTO people (name) VALUES (?)" [VStr "Ada"]]).
Proof.
  exact (@execute_without_result_set faulty_driver mysql_shop_adapter
           {| PostgresqlDatabaseManager.config :=
                InformationSchema.shop_config "postgres" 5432;
              PostgresqlDatabaseManager.conn := Some 2%nat |}
           1%nat 2%nat insert_query [] [] eq_refl eq_refl eq_refl eq_refl).
Defined.

Lemma connect_then_disconnect_witness :
  exists h m2,
    @driver_connect sample_driver (constructed blank_config) = Ok h /\
    any_conn (with_conn (constructed blank_config) 1%nat) = Some h /\
    [connect_event (constructed blank_config)]
    = [] ++ [connect_event (constructed blank_config)] /\
    @disconnect sample_driver _ _ (with_conn (constructed blank_config) 1%nat)
      [connect_event (constructed blank_config)]
    = (Ok m2, [connect_event (constructed blank_config)] ++ @close_events sample_driver h) /\
    closes (@close_events sample_driver h) = [h] /\
    any_conn m2 = None /\
    forall l2, @execute sample_driver _ _ m2 select_all l2
               = (Throw (Error "Not connected"), l2).
Proof.
  exact (@connect_then_disconnect sample_driver (constructed blank_config)
           (with_conn (constructed blank_config) 1%nat) select_all []
           [connect_event (constructed blank_config)] eq_refl).
Defined.

Lemma connect_never_closes_witness :
  exists h,
    @driver_connect sample_driver sample_pg = Ok h /\
    any_conn (with_conn sample_pg 2%nat) = Some h /\
    closes [ConnEnd 9%nat; connect_event sample_pg] = closes [ConnEnd 9%nat].
Proof.
  exact (@connect_never_closes sample_driver sample_pg (with_conn sample_pg 2%nat)
           [ConnEnd 9%nat] [ConnEnd 9%nat; connect_event sample_pg] eq_refl).
Defined.


Lemma introspect_tables_in_order_witness :
  exists h rows,
    any_conn sample_mysql = Some h /\
    @listing (InformationSchema.engine InformationSchema.mysql_shop) sample_mysql h
    = Some rows /\
    [VStr "customers"; VStr "orders"]
    = map (fun row => get row (name_key sample_mysql)) rows /\
    6%nat = (0 + 2 + 2 * length rows)%nat /\
    closes (snd (@introspect (InformationSchema.engine InformationSchema.mysql_shop)
                   _ _ sample_mysql []))
    = closes [].
Proof.
  exact (@introspect_tables_in_order
           (InformationSchema.engine InformationSchema.mysql_shop) sample_mysql
           (match fst (@introspect (InformationSchema.engine InformationSchema.mysql_shop)
                         _ _ sample_mysql []) with
            | Ok layout => layout
            | Throw _ => {| layout_name := VNull; tables := [] |}
            end)
           []
           (snd (@introspect (InformationSchema.engine InformationSchema.mysql_shop)
                   _ _ sample_mysql []))
           eq_refl).
Defined.

Lemma introspect_all_or_nothing_witness :
  exists e, fst (@introspect faulty_driver _ _ sample_mysql []) = Throw e.
Proof.
  exact (@introspect_all_or_nothing faulty_driver sample_mysql 1%nat
           [list_to_map [("table_name", VStr "people")]]
           (list_to_map [("table_name", VStr "people")]) []
           eq_refl eq_refl (or_introl eq_refl)
           (ex_intro _ (DriverError "ER_PARSE_ERROR") eq_refl)).
Defined.

Lemma unknown_session_rejected_witness :
  @inspect_database sample_driver 0 "zz" sample_server
  = (Throw (Error "No connection found for ID: zz"), sample_server).
Proof.
  exact (proj1 (@unknown_session_rejected sample_driver 0 "zz" sample_server eq_refl)).
Defined.

Lemma connect_tool_failure_witness :
  @connect_tool faulty_driver 0 "id" blank_config sample_server
  = (Throw (DriverError "ECONNREFUSED"),
     {| connCache := connCache sample_server;
        log := log sample_server ++ [connect_event (constructed blank_config)] |}).
Proof.
  exact (@connect_tool_failure faulty_driver 0 "id" blank_config
           (constructed blank_config) (DriverError "ECONNREFUSED") sample_server
           eq_refl eq_refl).
Defined.

Lemma connect_then_execute_witness :
  fst (@connect_tool sample_driver 10 "id" blank_config sample_server) = Ok "id" /\
  fst (@execute_query sample_driver 300010 "id" select_all
         (fold_left (@serve sample_driver) sample_between
            (snd (@connect_tool sample_driver 10 "id" blank_config sample_server))))
  = fst (@execute sample_driver _ _ (with_conn (constructed blank_config) 1%nat) select_all
           (log (fold_left (@serve sample_driver) sample_between
                   (snd (@connect_tool sample_driver 10 "id" blank_config
                           sample_server))))) /\
  log (snd (@execute_query sample_driver 300010 "id" select_all
              (fold_left (@serve sample_driver) sample_between
                 (snd (@connect_tool sample_driver 10 "id" blank_config sample_server)))))
  = log (fold_left (@serve sample_driver) sample_between
           (snd (@connect_tool sample_driver 10 "id" blank_config sample_server)))
    ++ [driver_call (constructed blank_config) 1%nat "SELECT id, name FROM people" []].
Proof.
  apply (@connect_then_execute sample_driver 10 300010 "id" blank_config
           (constructed blank_config) 1%nat select_all sample_server sample_between
           eq_refl eq_refl).
  - cbn. lia.
  - repeat constructor; cbn; intros; try discriminate; lia.
  - lia.
Defined.

Lemma used_session_survives_insertion_witness :
  LRUCache.find "my"
    (connCache (snd (@connCache_set sample_driver 9 "new" sample_pg
                       (snd (@execute_query sample_driver 5 "my" select_all
                               sample_server)))))
  = Some sample_entry_my.
Proof.
  exact (@used_session_survives_insertion sample_driver 5 9 "my" "new" select_all
           sample_pg sample_server sample_entry_my (conj eq_refl eq_refl)
           ltac:(discriminate)).
Defined.

Lemma cell_text_never_empty_witness :
  cell_text sample_Number_toString (VStr "") = "NULL".
Proof.
  exact (proj1 (proj2 (cell_text_never_empty sample_Number_toString (VStr "")
                         ltac:(intros n; discriminate)))
           (or_intror (or_intror eq_refl))).
Defined.

Lemma formatTable_lines_witness :
  lines (formatTable sample_Number_toString ["id"; "name"]
           [[VInt 1; VNull]; [VStr "x"; VBool true]])
  = ["id | name"; "--- | ---"; "7 | NULL"; "x | true"].
Proof.
  apply (formatTable_lines sample_Number_toString ["id"; "name"]
           [[VInt 1; VNull]; [VStr "x"; VBool true]]);
    repeat constructor.
Defined.

Lemma formatTable_rectangular_witness :
  Forall (fun line => occurrences bar line = 1%nat)
         (headerRow ["id"; "name"] :: separator ["id"; "name"]
          :: dataRows sample_Number_toString (formatRows ["id"; "name"] sample_rows)).
Proof.
  apply (formatTable_rectangular sample_Number_toString ["id"; "name"] sample_rows);
    vm_compute; repeat constructor.
Defined.

Lemma getExecutablePath_platforms_witness :
  getExecutablePath "/opt/dbmcp/bin" sample_path_join sample_existsSync "linux" "arm64"
  = Ok "/opt/dbmcp/bin/../dist/dbmcp-linux-x64" /\
  getExecutablePath "/opt/dbmcp/bin" sample_path_join sample_existsSync "darwin" "arm64"
  = Throw (Error "Executable not found: /opt/dbmcp/bin/../dist/dbmcp-darwin-arm64") /\
  getExecutablePath "/opt/dbmcp/bin" sample_path_join sample_existsSync "darwin" "x64"
  = Throw (Error "Executable not found: /opt/dbmcp/bin/../dist/dbmcp-darwin-x64") /\
  getExecutablePath "/opt/dbmcp/bin" sample_path_join sample_existsSync "freebsd" "x64"
  = Throw (Error "Unsupported platform: freebsd").
Proof.
  split; [|split; [|split]].
  - exact (proj1 (getExecutablePath_platforms "/opt/dbmcp/bin" sample_path_join
                    sample_existsSync "linux" "arm64") eq_refl).
  - exact (proj1 (proj2 (proj2 (getExecutablePath_platforms "/opt/dbmcp/bin"
                                  sample_path_join sample_existsSync "darwin" "arm64")))
             eq_refl eq_refl).
  - apply (proj1 (proj2 (proj2 (proj2 (getExecutablePath_platforms "/opt/dbmcp/bin"
                                         sample_path_join sample_existsSync
                                         "darwin" "x64"))))); [reflexivity|discriminate].
  - apply (proj1 (proj2 (proj2 (proj2 (proj2
             (getExecutablePath_platforms "/opt/dbmcp/bin" sample_path_join
                sample_existsSync "freebsd" "x64"))))));
      discriminate.
Defined.

Lemma SqlQuerySchema_parse_sound_witness :
  input_get sample_query_input "params" = Arr [VInt 1] /\ Forall sql_param [VInt 1].
Proof.
  exact (proj2 (proj2 (proj1 (SqlQuerySchema_parse_sound sample_query_input)
                         {| sql := "SELECT ?"; params := Some [VInt 1] |} eq_refl))).
Defined.

Lemma ExplainQuerySchema_parse_default_witness :
  analyze {| ex_sql := "SELECT 1"; ex_params := None; analyze := false |} = false /\
  explainQuery {| ex_sql := "SELECT 1"; ex_params := None; analyze := false |}
  = "EXPLAIN SELECT 1".
Proof.
  exact (proj1 (proj2 (proj2 (ExplainQuerySchema_parse_default sample_explain_input
                                {| ex_sql := "SELECT 1"; ex_params := None;
                                   analyze := false |} eq_refl))) eq_refl).
Defined.

Lemma introspect_name_fallback_witness :
  layout_name {| layout_name := VStr "shop"; tables := [] |}
  = get (any_config sample_pg) "database".
Proof.
  exact (@introspect_name_fallback faulty_driver sample_pg 2%nat
           {| layout_name := VStr "shop"; tables := [] |} []
           [PgQuery 2%nat pg_database_sql []; PgQuery 2%nat pg_tables_sql []]
           eq_refl I eq_refl).
Defined.

Lemma pg_introspect_nameless_witness :
  exists layout l',
    @PostgresqlDatabaseManager.introspect
      (InformationSchema.engine InformationSchema.pg_shop) pg_shop_adapter []
    = (Ok layout, l') /\
    tables layout
    = map (fun _ => nameless_table)
          (filter (fun t => InformationSchema.t_schema t = "public" /\
                            InformationSchema.t_type t = "BASE TABLE")
                  (InformationSchema.tables_view InformationSchema.pg_shop)).
Proof.
  exact (pg_introspect_nameless InformationSchema.pg_shop pg_shop_adapter 1%nat []
           eq_refl).
Defined.

Lemma mysql_introspect_lists_views_witness :
  exists layout l',
    @MysqlDatabaseManager.introspect
      (InformationSchema.engine InformationSchema.mysql_shop) mysql_shop_adapter []
    = (Ok layout, l') /\
    map table_name (tables layout)
    = map (fun t => VStr (InformationSchema.t_name t))
          (filter (fun t => InformationSchema.t_schema t = "shop")
                  (InformationSchema.tables_view InformationSchema.mysql_shop)).
Proof.
  exact (mysql_introspect_lists_views InformationSchema.mysql_shop mysql_shop_adapter
           1%nat "shop" [] eq_refl eq_refl).
Defined.
